(** * Static security analysis engine of report.py

    A shallow embedding of [analyze_python_security], [analyze_sql_security]
    and [generate_security_report] (report.py), with the properties the
    specification states about them.

    Modelling choices.
    - Python [str] values are [string]s (characters are code points below
      256); integers are [Z]; the report dictionary is a [gmap string pyval].
    - The try/except structure is kept: the analysis body is a computation
      in a state-and-exception monad over the report dictionary; a raised
      exception leaves the dictionary as mutated so far, exactly as the
      mutable Python dict does.
    - What the code obtains from outside the repository is a parameter:
      the file system ([open_read]), Python's [ast.parse] and the sqlparse
      library ([sqlparse_parse], [get_type]).  [re.search], [in] on
      strings, [str.upper] and [ast.walk] are defined here. *)

From stdpp Require Import gmap strings list fin_maps pretty.
From Stdlib Require Import ZArith Lia Ascii.

Local Open Scope Z_scope.

(** ** Values and the report dictionary *)

Inductive pyval :=
| VInt (z : Z)
| VStr (s : string)
| VList (l : list string).

Abbreviation dict := (gmap string pyval).

(** An exception instance caught by [except Exception as e], identified
    with [str(e)]. *)
Definition exn := string.

(** ** The state-and-exception monad of a function body working on one
    mutable dictionary *)

Definition M (A : Type) : Type := dict -> (exn + A) * dict.

Definition ret {A} (a : A) : M A := fun d => (inr a, d).

Definition bind {A B} (m : M A) (k : A -> M B) : M B :=
  fun d => match m d with
           | (inl e, d') => (inl e, d')
           | (inr a, d') => k a d'
           end.

Definition raise {A} (e : exn) : M A := fun d => (inl e, d).

Declare Scope py_scope.
Delimit Scope py_scope with py.
Notation "x <- c1 ;; c2" := (bind c1 (fun x => c2))
  (at level 100, c1 at next level, right associativity) : py_scope.
Notation "c1 ;; c2" := (bind c1 (fun _ => c2))
  (at level 100, right associativity) : py_scope.

(** [if c: body] with no else branch. *)
Definition when (c : bool) (body : M unit) : M unit :=
  if c then body else ret tt.

(** [for x in xs: body]. *)
Fixpoint for_each {A} (xs : list A) (body : A -> M unit) : M unit :=
  match xs with
  | [] => ret tt
  | x :: xs' => (body x ;; for_each xs' body)%py
  end.

(** [try: body / except: pass] (a bare except: every exception is dropped,
    the mutations made before it stay). *)
Definition try_except_pass (body : M unit) : M unit :=
  fun d => match body d with
           | (inl _, d') => (inr tt, d')
           | (inr _, d') => (inr tt, d')
           end.

(** [d[k]]: a missing key raises KeyError, whose [str] is the repr of the
    key. *)
Definition getitem (k : string) : M pyval :=
  fun d => match d !! k with
           | Some v => (inr v, d)
           | None => (inl ("'" +:+ k +:+ "'"), d)
           end.

(** [d[k] = v]. *)
Definition setitem (k : string) (v : pyval) : M unit :=
  fun d => (inr tt, <[k := v]> d).

(** [d[k].append(x)]; the list object is shared with the dictionary, so the
    append is visible through it. *)
Definition append_to (k : string) (x : string) : M unit :=
  (v <- getitem k ;;
   match v with
   | VList l => setitem k (VList (l ++ [x]))
   | VInt _ => raise "'int' object has no attribute 'append'"
   | VStr _ => raise "'str' object has no attribute 'append'"
   end)%py.

(** [d[k] -= n]. *)
Definition isub (k : string) (n : Z) : M unit :=
  (v <- getitem k ;;
   match v with
   | VInt z => setitem k (VInt (z - n))
   | VStr _ => raise "unsupported operand type(s) for -=: 'str' and 'int'"
   | VList _ => raise "unsupported operand type(s) for -=: 'list' and 'int'"
   end)%py.

(** [len(d[k])]. *)
Definition len_of (k : string) : M Z :=
  (v <- getitem k ;;
   match v with
   | VList l => ret (Z.of_nat (length l))
   | VStr s => ret (Z.of_nat (String.length s))
   | VInt _ => raise "object of type 'int' has no len()"
   end)%py.

(** [d[k] < n]. *)
Definition lt_int (k : string) (n : Z) : M bool :=
  (v <- getitem k ;;
   match v with
   | VInt z => ret (z <? n)
   | VStr _ => raise "'<' not supported between instances of 'str' and 'int'"
   | VList _ => raise "'<' not supported between instances of 'list' and 'int'"
   end)%py.

(** ** Text: Python's [str] operations used by the analyzers *)

(** [haystack.startswith(needle)]. *)
Fixpoint startswith (needle hay : string) : bool :=
  match needle, hay with
  | EmptyString, _ => true
  | String a n', String b h' => if Ascii.eqb a b then startswith n' h' else false
  | String _ _, EmptyString => false
  end.

(** [needle in hay] on strings: [needle] occurs as a contiguous substring. *)
Fixpoint str_in (needle hay : string) : bool :=
  startswith needle hay ||
  match hay with
  | EmptyString => false
  | String _ h' => str_in needle h'
  end.

(** [x in xs] on a list of strings. *)
Definition list_in (x : string) (xs : list string) : bool :=
  existsb (String.eqb x) xs.

Definition code (c : ascii) : N := Ascii.N_of_ascii c.
Definition chr (n : N) : ascii := Ascii.ascii_of_N n.

(** [str.upper] and the case folding of [re.I], on one character: the
    letters a-z.  (For the code points 128-255 Python's upper-casing yields
    characters that are not ASCII, or "SS" for U+00DF; no needle of the
    analyzers contains "SS" or starts or ends with "S", so leaving these
    code points alone does not change any [in] test below.) *)
Definition upper_char (c : ascii) : ascii :=
  if ((97 <=? code c) && (code c <=? 122))%N then chr (code c - 32) else c.

Definition lower_char (c : ascii) : ascii :=
  if ((65 <=? code c) && (code c <=? 90))%N then chr (code c + 32) else c.

Fixpoint upper (s : string) : string :=
  match s with
  | EmptyString => EmptyString
  | String c s' => String (upper_char c) (upper s')
  end.

(** ** Regular expressions: [re.search] *)

(** One-character patterns. *)
Inductive cset :=
| Lit (c : ascii)            (* a literal character *)
| Dot                        (* [.]: anything but a newline *)
| Space                      (* [\s] *)
| OneOf (l : list ascii)     (* [[...]] *)
| NoneOf (l : list ascii).   (* [[^...]] *)

Inductive regex :=
| Void
| Eps
| Sym (cs : cset)
| Cat (r1 r2 : regex)
| Alt (r1 r2 : regex)
| Star (r : regex).

(** [r+] *)
Definition Plus (r : regex) : regex := Cat r (Star r).

(** A literal word. *)
Fixpoint Word (s : string) : regex :=
  match s with
  | EmptyString => Eps
  | String c s' => Cat (Sym (Lit c)) (Word s')
  end.

(** Whitespace as [\s] sees it in a [str] pattern, below code point 256. *)
Definition is_space (c : ascii) : bool :=
  let n := code c in
  (((9 <=? n) && (n <=? 13)) || ((28 <=? n) && (n <=? 32))
   || (n =? 133) || (n =? 160))%N.

Definition mem_ascii (c : ascii) (l : list ascii) : bool :=
  existsb (Ascii.eqb c) l.

(** [ic] is the flag [re.I]. *)
Definition fold_case (ic : bool) (c : ascii) : ascii :=
  if ic then lower_char c else c.

Definition cset_match (ic : bool) (cs : cset) (x : ascii) : bool :=
  match cs with
  | Lit c => Ascii.eqb (fold_case ic c) (fold_case ic x)
  | Dot => negb (Ascii.eqb x "010")
  | Space => is_space x
  | OneOf l => mem_ascii (fold_case ic x) (map (fold_case ic) l)
  | NoneOf l => negb (mem_ascii (fold_case ic x) (map (fold_case ic) l))
  end.

Fixpoint nullable (r : regex) : bool :=
  match r with
  | Void => false
  | Eps => true
  | Sym _ => false
  | Cat r1 r2 => nullable r1 && nullable r2
  | Alt r1 r2 => nullable r1 || nullable r2
  | Star _ => true
  end.

(** The derivative of [r] by the character [x]. *)
Fixpoint deriv (ic : bool) (x : ascii) (r : regex) : regex :=
  match r with
  | Void => Void
  | Eps => Void
  | Sym cs => if cset_match ic cs x then Eps else Void
  | Cat r1 r2 =>
      if nullable r1
      then Alt (Cat (deriv ic x r1) r2) (deriv ic x r2)
      else Cat (deriv ic x r1) r2
  | Alt r1 r2 => Alt (deriv ic x r1) (deriv ic x r2)
  | Star r1 => Cat (deriv ic x r1) (Star r1)
  end.

(** [re.match(r, s) is not None]: some prefix of [s] matches [r]. *)
Fixpoint re_match (ic : bool) (r : regex) (s : string) : bool :=
  nullable r ||
  match s with
  | EmptyString => false
  | String c s' => re_match ic (deriv ic c r) s'
  end.

(** [re.search(r, s) is not None]: a match starts at some position. *)
Fixpoint re_search (ic : bool) (r : regex) (s : string) : bool :=
  re_match ic r s ||
  match s with
  | EmptyString => false
  | String _ s' => re_search ic r s'
  end.

(** The two quote characters, ' and the double quote. *)
Definition squote : ascii := "039".
Definition dquote : ascii := "034".
Definition quotes : list ascii := [squote; dquote].

(** The pattern [(password|passwd|secret|key)\s*=\s*[Q][^Q]+[Q]], where the
    class Q holds the two quote characters. *)
Definition credential_re : regex :=
  Cat (Alt (Word "password") (Alt (Word "passwd") (Alt (Word "secret") (Word "key"))))
 (Cat (Star (Sym Space))
 (Cat (Sym (Lit "="))
 (Cat (Star (Sym Space))
 (Cat (Sym (OneOf quotes))
 (Cat (Plus (Sym (NoneOf quotes)))
      (Sym (OneOf quotes))))))).

(** [(SELECT|INSERT|UPDATE|DELETE).*(\+|\|\|).*(input|argv|getenv)] *)
Definition sql_injection_re : regex :=
  Cat (Alt (Word "SELECT") (Alt (Word "INSERT") (Alt (Word "UPDATE") (Word "DELETE"))))
 (Cat (Star (Sym Dot))
 (Cat (Alt (Sym (Lit "+")) (Word "||"))
 (Cat (Star (Sym Dot))
      (Alt (Word "input") (Alt (Word "argv") (Word "getenv")))))).

(** The strings a pattern denotes; [re_match] and [re_search] are checked
    against it below. *)
Inductive re_lang (ic : bool) : regex -> string -> Prop :=
| L_Eps : re_lang ic Eps ""
| L_Sym cs c : cset_match ic cs c = true -> re_lang ic (Sym cs) (String c "")
| L_Cat r1 r2 s1 s2 :
    re_lang ic r1 s1 -> re_lang ic r2 s2 -> re_lang ic (Cat r1 r2) (s1 +:+ s2)
| L_AltL r1 r2 s : re_lang ic r1 s -> re_lang ic (Alt r1 r2) s
| L_AltR r1 r2 s : re_lang ic r2 s -> re_lang ic (Alt r1 r2) s
| L_Star0 r : re_lang ic (Star r) ""
| L_StarS r s1 s2 :
    re_lang ic r s1 -> re_lang ic (Star r) s2 -> re_lang ic (Star r) (s1 +:+ s2).

(** Every character of [s] satisfies [p]. *)
Fixpoint all_chars (p : ascii -> bool) (s : string) : bool :=
  match s with
  | EmptyString => true
  | String c s' => p c && all_chars p s'
  end.

(** The lines of a text, split at the newline character; line [n] of the
    source (1-based, as [lineno] counts) is [lines s !! (n - 1)]. *)
Fixpoint lines (s : string) : list string :=
  match s with
  | EmptyString => [EmptyString]
  | String c s' =>
      if Ascii.eqb c "010" then EmptyString :: lines s'
      else match lines s' with
           | [] => [String c EmptyString]
           | l :: ls => String c l :: ls
           end
  end.

(** ** Syntax trees: what [ast.parse] returns and [ast.walk] visits *)

(** The node classes the analyzer tells apart are [ast.Call] and
    [ast.Name]; [ast.Attribute] is kept to show a qualified callee such as
    os.system; every other class is a [Node] with its child nodes in field
    order. *)
#[local] Unset Elimination Schemes.
Inductive node :=
| Call (lineno : Z) (func : node) (args : list node) (keywords : list node)
| Name (lineno : Z) (id : string)
| Attribute (lineno : Z) (value : node) (attr : string)
| Node (children : list node).
#[local] Set Elimination Schemes.

(** The expression context ([Load()], [Store()]) of a name or attribute. *)
Definition ctx : node := Node [].

(** [ast.iter_child_nodes]. *)
Definition iter_child_nodes (n : node) : list node :=
  match n with
  | Call _ func args keywords => func :: args ++ keywords
  | Name _ _ => [ctx]
  | Attribute _ value _ => [value; ctx]
  | Node children => children
  end.

Fixpoint node_size (n : node) : nat :=
  match n with
  | Call _ func args keywords =>
      S (node_size func + list_sum (map node_size args)
         + list_sum (map node_size keywords))
  | Name _ _ => 2
  | Attribute _ value _ => S (S (node_size value))
  | Node children => S (list_sum (map node_size children))
  end.

(** The loop of [ast.walk]: pop the leftmost node of the queue, push its
    children on the right, yield it.  The queue holds fewer nodes after
    each step, [fuel] bounds the number of steps. *)
Fixpoint walk_queue (fuel : nat) (todo : list node) : list node :=
  match fuel with
  | O => []
  | S fuel' =>
      match todo with
      | [] => []
      | n :: rest => n :: walk_queue fuel' (rest ++ iter_child_nodes n)
      end
  end.

(** [list(ast.walk(tree))]. *)
Definition walk (tree : node) : list node :=
  walk_queue (node_size tree) [tree].

(** ** The analyzers *)

Definition dangerous_funcs : list string :=
  ["eval"; "exec"; "pickle.loads"; "os.system"; "subprocess.call"].

Definition sensitive_ops : list string :=
  ["DROP TABLE"; "TRUNCATE TABLE"; "GRANT ALL"; "ALTER USER"].

(** The dictionary literal both analyzers start from. *)
Definition mk_report (issues : list string) (count : Z) (risk : string)
    (score : Z) : dict :=
  <["security_issues" := VList issues]>
    (<["vulnerability_count" := VInt count]>
       (<["risk_level" := VStr risk]>
          (<["security_score" := VInt score]> ∅))).

Definition initial_report : dict := mk_report [] 0 "Low" 100.

(** The result of a call into a library, inside the monad. *)
Definition lift {A} (r : exn + A) : M A :=
  match r with
  | inl e => raise e
  | inr a => ret a
  end.

(** [try: body / except Exception as e: report['error'] = ...], followed by
    [return report]. *)
Definition except_Exception (body : M unit) (report : dict) : dict :=
  match body report with
  | (inr _, d) => d
  | (inl e, d) => <["error" := VStr ("Security analysis failed: " +:+ e)]> d
  end.

(** The lines "Update risk level based on score" of both analyzers. *)
Definition update_risk_level : M unit :=
  (n <- len_of "security_issues" ;;
   setitem "vulnerability_count" (VInt n) ;;
   high <- lt_int "security_score" 50 ;;
   if high then setitem "risk_level" (VStr "High")
   else
     (medium <- lt_int "security_score" 80 ;;
      when medium (setitem "risk_level" (VStr "Medium"))))%py.

Section Analyzer.

(** [with open(filepath, 'r', encoding='utf-8') as f: f.read()]: the
    text, or the exception raised. *)
Variable open_read : string -> exn + string.

(** [ast.parse]: the tree, or the exception raised. *)
Variable ast_parse : string -> exn + node.

(** sqlparse: [sqlparse.parse] and [Statement.get_type]. *)
Variable Statement : Type.
Variable sqlparse_parse : string -> exn + list Statement.
Variable get_type : Statement -> string.

(** The body of the outer [try] of [analyze_python_security]. *)
Definition python_body (filepath : string) : M unit :=
  (content <- lift (open_read filepath) ;;
   for_each dangerous_funcs (fun func =>
     when (str_in func content)
       (append_to "security_issues" ("Dangerous function used: " +:+ func) ;;
        isub "security_score" 10)) ;;
   when (existsb (fun x => str_in ("system(" +:+ x) content)
           ["input"; "argv"; "getenv"])
     (append_to "security_issues" "Potential command injection vulnerability" ;;
      isub "security_score" 15) ;;
   when (re_search false credential_re content)
     (append_to "security_issues" "Hardcoded credentials detected" ;;
      isub "security_score" 20) ;;
   try_except_pass
     (tree <- lift (ast_parse content) ;;
      for_each (walk tree) (fun n =>
        match n with
        | Call lineno (Name _ id) _ _ =>
            when (list_in id dangerous_funcs)
              (append_to "security_issues"
                 ("Dangerous function call: " +:+ id +:+ " at line "
                  +:+ pretty lineno) ;;
               isub "security_score" 10)
        | _ => ret tt
        end)) ;;
   update_risk_level)%py.

Definition analyze_python_security (filepath : string) : dict :=
  except_Exception (python_body filepath) initial_report.

(** The body of the outer [try] of [analyze_sql_security]. *)
Definition sql_body (filepath : string) : M unit :=
  (content <- lift (open_read filepath) ;;
   when (re_search true sql_injection_re content)
     (append_to "security_issues" "Potential SQL injection vulnerability" ;;
      isub "security_score" 30) ;;
   when (str_in "EXEC(" (upper content)
         || str_in "EXECUTE IMMEDIATE" (upper content))
     (append_to "security_issues" "Dynamic SQL execution detected" ;;
      isub "security_score" 20) ;;
   for_each sensitive_ops (fun op =>
     when (str_in op (upper content))
       (append_to "security_issues" ("Sensitive operation: " +:+ op) ;;
        isub "security_score" 15)) ;;
   try_except_pass
     (statements <- lift (sqlparse_parse content) ;;
      for_each statements (fun stmt =>
        when (String.eqb (get_type stmt) "UNKNOWN")
          (append_to "security_issues" "Potentially malformed SQL statement" ;;
           isub "security_score" 10))) ;;
   update_risk_level)%py.

Definition analyze_sql_security (filepath : string) : dict :=
  except_Exception (sql_body filepath) initial_report.

Definition generate_security_report (filepath filetype : string) : dict :=
  if String.eqb filetype "py" then analyze_python_security filepath
  else if String.eqb filetype "sql" then analyze_sql_security filepath
  else {["error" := VStr "Unsupported file type for security analysis"]}.

End Analyzer.

Arguments sql_body open_read {Statement} sqlparse_parse get_type filepath.
Arguments analyze_sql_security open_read {Statement} sqlparse_parse get_type
  filepath.
Arguments generate_security_report open_read ast_parse {Statement}
  sqlparse_parse get_type filepath filetype.

(** ** The pipeline as the specification describes it *)

(** A finding: its label and its score penalty. *)
Definition finding : Type := string * Z.

Definition sumZ (l : list Z) : Z := foldr Z.add 0 l.

Definition penalties (fs : list finding) : Z := sumZ (map snd fs).

(** Risk tier of a final score (section 4.4 of the specification). *)
Definition risk_level_of (score : Z) : string :=
  if score <? 50 then "High" else if score <? 80 then "Medium" else "Low".

(** Score Aggregator: the report built from the findings, in order. *)
Definition aggregate (fs : list finding) : dict :=
  mk_report (map fst fs) (Z.of_nat (length fs))
    (risk_level_of (100 - penalties fs)) (100 - penalties fs).

(** Pattern Scanner, Python catalog: the three text-level heuristics, in
    catalog order. *)
Definition dangerous_function_findings (content : string) : list finding :=
  flat_map (fun func =>
      if str_in func content
      then [("Dangerous function used: " +:+ func, 10)] else [])
    dangerous_funcs.

Definition command_injection_findings (content : string) : list finding :=
  if existsb (fun x => str_in ("system(" +:+ x) content)
       ["input"; "argv"; "getenv"]
  then [("Potential command injection vulnerability", 15)] else [].

Definition credential_findings (content : string) : list finding :=
  if re_search false credential_re content
  then [("Hardcoded credentials detected", 20)] else [].

Definition pattern_scanner_py (content : string) : list finding :=
  dangerous_function_findings content
  ++ command_injection_findings content
  ++ credential_findings content.

(** The calls the Structural Scanner reports: callee name and line. *)
Definition structural_hit (n : node) : list (string * Z) :=
  match n with
  | Call lineno (Name _ id) _ _ =>
      if list_in id dangerous_funcs then [(id, lineno)] else []
  | _ => []
  end.

Definition structural_label (hit : string * Z) : string :=
  "Dangerous function call: " +:+ fst hit +:+ " at line " +:+ pretty (snd hit).

(** Structural Scanner: no finding when the parse fails. *)
Definition structural_scanner (parsed : exn + node) : list finding :=
  match parsed with
  | inl _ => []
  | inr tree =>
      map (fun hit => (structural_label hit, 10))
        (flat_map structural_hit (walk tree))
  end.

(** Pattern Scanner, SQL catalog. *)
Definition pattern_scanner_sql (content : string) : list finding :=
  (if re_search true sql_injection_re content
   then [("Potential SQL injection vulnerability", 30)] else [])
  ++ (if str_in "EXEC(" (upper content)
         || str_in "EXECUTE IMMEDIATE" (upper content)
      then [("Dynamic SQL execution detected", 20)] else [])
  ++ flat_map (fun op =>
         if str_in op (upper content)
         then [("Sensitive operation: " +:+ op, 15)] else [])
       sensitive_ops.

(** The statement types [get_type] gives for the parsed statements; none
    when sqlparse raises. *)
Definition statement_types {Statement : Type}
    (get_type : Statement -> string) (parsed : exn + list Statement)
    : list string :=
  match parsed with
  | inl _ => []
  | inr statements => map get_type statements
  end.

(** SQL statement classification: one finding per statement of unknown
    type. *)
Definition statement_classifier (types : list string) : list finding :=
  flat_map (fun t =>
      if String.eqb t "UNKNOWN"
      then [("Potentially malformed SQL statement", 10)] else [])
    types.

(** The report after the findings [fs] have been applied to a report of the
    usual shape. *)
Definition adds (fs : list finding) (l : list string) (c : Z) (r : string)
    (s : Z) : (exn + unit) * dict :=
  (inr tt, mk_report (l ++ map fst fs) c r (s - penalties fs)).


(** The penalty the Signature Catalog (section 4.1 of the specification)
    attaches to a finding, read off its label. *)
Definition catalog_penalty (label : string) : Z :=
  if startswith "Dangerous function used: " label then 10
  else if String.eqb label "Potential command injection vulnerability" then 15
  else if String.eqb label "Hardcoded credentials detected" then 20
  else if startswith "Dangerous function call: " label then 10
  else if String.eqb label "Potential SQL injection vulnerability" then 30
  else if String.eqb label "Dynamic SQL execution detected" then 20
  else if startswith "Sensitive operation: " label then 15
  else if String.eqb label "Potentially malformed SQL statement" then 10
  else 0.

(** The invariant of section 3: the count is the number of issues and the
    score is 100 less the penalties of the issues, with no clamping. *)
Definition report_consistent (d : dict) : Prop :=
  exists issues : list string,
    d !! "security_issues" = Some (VList issues)
    /\ d !! "vulnerability_count" = Some (VInt (Z.of_nat (length issues)))
    /\ d !! "security_score"
       = Some (VInt (100 - sumZ (map catalog_penalty issues))).

(** Number of nodes waiting in the queue of [ast.walk], with their
    descendants. *)
Definition total_size (todo : list node) : nat :=
  list_sum (map node_size todo).

(** A Python identifier holds no dot. *)
Definition no_dot (id : string) : bool := negb (str_in "." id).

(** Every [Name] of the tree carries an identifier, as in every tree that
    [ast.parse] builds. *)
Fixpoint identifiers_ok (n : node) : bool :=
  match n with
  | Call _ func args keywords =>
      identifiers_ok func && forallb identifiers_ok args
      && forallb identifiers_ok keywords
  | Name _ id => no_dot id
  | Attribute _ value _ => identifiers_ok value
  | Node children => forallb identifiers_ok children
  end.

(** A finding carries the penalty of its catalog entry. *)
Definition priced (f : finding) : Prop := catalog_penalty (fst f) = snd f.

(** ** Sample inputs *)

(** A file system holding one file. *)
Definition one_file (name content : string) : string -> exn + string :=
  fun path =>
    if String.eqb path name then inr content
    else inl ("[Errno 2] No such file or directory: '" +:+ path +:+ "'").

(** A parser that rejects everything. *)
Definition parse_fails : string -> exn + node :=
  fun _ => inl "invalid syntax (<unknown>, line 1)".

(** sqlparse, with a statement represented by its type. *)
Definition one_select : string -> exn + list string :=
  fun _ => inr ["SELECT"].

Definition type_of (stmt : string) : string := stmt.

(** An SQL text that triggers every text-level heuristic. *)
Definition overloaded_sql : string :=
  "SELECT a + input; EXEC(x); DROP TABLE t; TRUNCATE TABLE t; GRANT ALL; ALTER USER u".

Definition nl : string := String "010" "".

(** [s] between double quotes. *)
Definition quoted (s : string) : string :=
  String dquote (s +:+ String dquote "").

(** A parser that knows one source text. *)
Definition parse_as (src : string) (tree : node) : string -> exn + node :=
  fun s => if String.eqb s src then inr tree
           else inl "invalid syntax (<unknown>, line 1)".

(** A clean three-line file whose third line is the call eval(x), and its
    syntax tree: a module of two assignments and one expression
    statement. *)
Definition eval_source : string :=
  "x = 1" +:+ nl +:+ "y = 2" +:+ nl +:+ "eval(x)" +:+ nl.

Definition eval_tree : node :=
  Node [Node [Name 1 "x"; Node []];
        Node [Name 2 "y"; Node []];
        Node [Call 3 (Name 3 "eval") [Name 3 "x"] []]].

(** A file holding only the assignment password = [quoted] abc123, the
    same with the name in upper case, and the same with an empty literal;
    the tree of each is a module of one assignment. *)
Definition password_source : string := "password = " +:+ quoted "abc123".
Definition upper_password_source : string := "PASSWORD = " +:+ quoted "abc123".
Definition empty_password_source : string := "password = " +:+ quoted "".

Definition assignment_tree (target : string) : node :=
  Node [Node [Name 1 target; Node []]].

(** ** Vocabulary of the claims *)

(** A text-level signature other than the substring eval matches. *)
Definition other_text_signature (content : string) : bool :=
  existsb (fun func => str_in func content)
    ["exec"; "pickle.loads"; "os.system"; "subprocess.call"]
  || existsb (fun x => str_in ("system(" +:+ x) content)
       ["input"; "argv"; "getenv"]
  || re_search false credential_re content.

Definition credential_names : list string :=
  ["password"; "passwd"; "secret"; "key"].

Definition is_quote (c : ascii) : bool := mem_ascii c quotes.

(** The letters A-Z folded to lower case: [str.lower] on a text of ASCII. *)
Fixpoint lower (s : string) : string :=
  match s with
  | EmptyString => EmptyString
  | String c s' => String (lower_char c) (lower s')
  end.

(** The text holds one of the four names, in lower case, then optional
    whitespace, an equals sign, optional whitespace and a quoted literal of
    at least one character that is not a quote. *)
Definition credential_text (content : string) : Prop :=
  exists (pre name ws1 ws2 : string) (q1 : ascii) (body : string)
         (q2 : ascii) (post : string),
    content = pre +:+ name +:+ ws1 +:+ "=" +:+ ws2
              +:+ String q1 (body +:+ String q2 post)
    /\ In name credential_names
    /\ all_chars is_space ws1 = true
    /\ all_chars is_space ws2 = true
    /\ is_quote q1 = true
    /\ is_quote q2 = true
    /\ body <> ""
    /\ all_chars (fun c => negb (is_quote c)) body = true.

(** The SQL text of the specification's example (it ends in a space). *)
Definition sql_injection_source : string :=
  "SELECT * FROM users WHERE id = ' + input() ".

(** A file system in which every path holds the same text. *)
Definition every_file (content : string) : string -> exn + string :=
  fun _ => inr content.

(** A file system in which no path can be read. *)
Definition no_file : string -> exn + string :=
  fun path => inl ("[Errno 2] No such file or directory: '" +:+ path +:+ "'").

(** The prefix of the Structural Scanner's labels. *)
Definition call_prefix : string := "Dangerous function call: ".

(** Case analysis on every test of the goal. *)
Ltac by_cases_on_tests :=
  repeat match goal with
         | |- context [if ?b then _ else _] => destruct b
         end.


(** * Further definitions: the issue lists in closed form *)

(** The labels of the Python text-level issues, in the order the analyzer
    appends them. *)
Definition python_text_issues (content : string) : list string :=
  map (fun func => "Dangerous function used: " +:+ func)
    (List.filter (fun func => str_in func content) dangerous_funcs)
  ++ (if existsb (fun x => str_in ("system(" +:+ x) content)
            ["input"; "argv"; "getenv"]
      then ["Potential command injection vulnerability"] else [])
  ++ (if re_search false credential_re content
      then ["Hardcoded credentials detected"] else []).

(** The labels of the structural issues: one per reported call, in the
    order [ast.walk] yields the calls. *)
Definition python_structural_issues (parsed : exn + node) : list string :=
  match parsed with
  | inl _ => []
  | inr tree => map structural_label (flat_map structural_hit (walk tree))
  end.

(** The labels of the SQL text-level issues, in the order the analyzer
    appends them. *)
Definition sql_text_issues (content : string) : list string :=
  (if re_search true sql_injection_re content
   then ["Potential SQL injection vulnerability"] else [])
  ++ (if str_in "EXEC(" (upper content)
         || str_in "EXECUTE IMMEDIATE" (upper content)
      then ["Dynamic SQL execution detected"] else [])
  ++ map (fun op => "Sensitive operation: " +:+ op)
       (List.filter (fun op => str_in op (upper content)) sensitive_ops).

(** One label per statement of type UNKNOWN. *)
Definition sql_statement_issues (types : list string) : list string :=
  map (fun _ => "Potentially malformed SQL statement")
    (List.filter (fun t => String.eqb t "UNKNOWN") types).

(** The four keys of the dictionary literal the analyzers start from. *)
Definition report_keys : gset string :=
  {["security_issues"; "vulnerability_count"; "risk_level"; "security_score"]}.

(** Every catalog penalty lies between 10 and 30 points. *)
Definition modest (f : finding) : Prop := 10 <= snd f <= 30.

(** The labels that do not depend on the analyzed file at all. *)
Definition fixed_labels : list string :=
  ["Dangerous function used: eval";
   "Dangerous function used: exec";
   "Dangerous function used: pickle.loads";
   "Dangerous function used: os.system";
   "Dangerous function used: subprocess.call";
   "Potential command injection vulnerability";
   "Hardcoded credentials detected";
   "Potential SQL injection vulnerability";
   "Dynamic SQL execution detected";
   "Sensitive operation: DROP TABLE";
   "Sensitive operation: TRUNCATE TABLE";
   "Sensitive operation: GRANT ALL";
   "Sensitive operation: ALTER USER";
   "Potentially malformed SQL statement"].

(** A label is in the analyzers' vocabulary: a fixed label, or the label of
    a call of a catalog function at some line. *)
Definition in_vocabulary (issue : string) : Prop :=
  In issue fixed_labels
  \/ exists (func : string) (lineno : Z),
       In func dangerous_funcs
       /\ issue = "Dangerous function call: " +:+ func +:+ " at line "
                  +:+ pretty lineno.

(** A file system holding two files. *)
Definition two_files (name1 content1 name2 content2 : string)
    : string -> exn + string :=
  fun path =>
    if String.eqb path name1 then inr content1
    else if String.eqb path name2 then inr content2
    else inl ("[Errno 2] No such file or directory: '" +:+ path +:+ "'").

Definition newline : ascii := "010".

(** No one-character pattern of [r] accepts the newline. *)
Fixpoint rejects_newline (ic : bool) (r : regex) : bool :=
  match r with
  | Void | Eps => true
  | Sym cs => negb (cset_match ic cs newline)
  | Cat r1 r2 | Alt r1 r2 => rejects_newline ic r1 && rejects_newline ic r2
  | Star r1 => rejects_newline ic r1
  end.

Definition not_newline (c : ascii) : bool := negb (Ascii.eqb c newline).

(** * app.py: the upload filter *)

(** config.py: [ALLOWED_EXTENSIONS = {'py', 'sql'}]. *)
Definition ALLOWED_EXTENSIONS : gset string := {["py"; "sql"]}.

(** The text before and after the last dot of [s]; [None] when [s] holds
    no dot. *)
Fixpoint split_last_dot (s : string) : option (string * string) :=
  match s with
  | EmptyString => None
  | String c s' =>
      match split_last_dot s' with
      | Some (head, tail) => Some (String c head, tail)
      | None => if Ascii.eqb c "." then Some (EmptyString, s') else None
      end
  end.

(** [s.rsplit('.', 1)]. *)
Definition rsplit_dot (s : string) : list string :=
  match split_last_dot s with
  | Some (head, tail) => [head; tail]
  | None => [s]
  end.

(** [l[i]] on a list. *)
Definition list_getitem {A} (l : list A) (i : nat) : exn + A :=
  match l !! i with
  | Some x => inr x
  | None => inl "list index out of range"
  end.

(** [str.lower] on one character, for the code points below 256: the
    letters A-Z and the capital letters of Latin-1 (U+00C0 to U+00DE
    without the multiplication sign U+00D7) move up by 32; every other
    character is its own lower case. *)
Definition str_lower_char (c : ascii) : ascii :=
  let n := code c in
  if (((65 <=? n) && (n <=? 90))
      || ((192 <=? n) && (n <=? 222) && negb (n =? 215)))%N
  then chr (n + 32) else c.

(** [s.lower()]. *)
Fixpoint str_lower (s : string) : string :=
  match s with
  | EmptyString => EmptyString
  | String c s' => String (str_lower_char c) (str_lower s')
  end.

(** [filename.rsplit('.', 1)[1].lower()], the expression [allowed_file],
    [upload] and [rerun] all use. *)
Definition extension_of (filename : string) : exn + string :=
  match list_getitem (rsplit_dot filename) 1 with
  | inl e => inl e
  | inr ext => inr (str_lower ext)
  end.

(** [allowed_file]: [and] evaluates its right operand only when the left
    one is true. *)
Definition allowed_file (filename : string) : exn + bool :=
  if str_in "." filename
  then match extension_of filename with
       | inl e => inl e
       | inr ext => inr (bool_decide (ext ∈ ALLOWED_EXTENSIONS))
       end
  else inr false.

(** * auth.py: the users table, signup and login *)

(** A row of the table [users] created by [init_user_db]: [id] is an
    AUTOINCREMENT primary key, [username] is UNIQUE with collation NOCASE,
    [created_at] defaults to CURRENT_TIMESTAMP. *)
Record user_row := {
  row_id : Z;
  row_username : string;
  row_password : string;
  row_created_at : string
}.

(** [s.lstrip()], [s.rstrip()] and [s.strip()]: whitespace is what
    [str.isspace] accepts, the class [is_space] below code point 256. *)
Fixpoint lstrip (s : string) : string :=
  match s with
  | EmptyString => EmptyString
  | String c s' => if is_space c then lstrip s' else s
  end.

Fixpoint rstrip (s : string) : string :=
  match s with
  | EmptyString => EmptyString
  | String c s' =>
      match rstrip s' with
      | EmptyString => if is_space c then EmptyString else String c EmptyString
      | r => String c r
      end
  end.

Definition strip (s : string) : string := rstrip (lstrip s).

(** The character NUL. *)
Definition is_nul (c : ascii) : bool := (code c =? 0)%N.

(** Length of the UTF-8 encoding, in bytes: one byte for a code point
    below 128, two for the others below 256. *)
Fixpoint utf8_length (s : string) : nat :=
  match s with
  | EmptyString => O
  | String c s' => ((if (code c <? 128)%N then 1 else 2) + utf8_length s')%nat
  end.

(** SQLite's [sqlite3StrNICmp] gives 0: the two texts agree, the 26
    upper-case letters of ASCII folded, up to the end of the shorter one or
    up to a NUL they both hold at the same place.  What follows a NUL is not
    looked at. *)
Fixpoint strnicmp_zero (a b : string) : bool :=
  match a, b with
  | String c a', String d b' =>
      if is_nul c then is_nul d
      else if Ascii.eqb (lower_char c) (lower_char d)
           then strnicmp_zero a' b' else false
  | _, _ => true
  end.

(** Equality under SQLite's NOCASE collation: [sqlite3StrNICmp] gives 0 on
    the shorter length, and the two encodings have the same length. *)
Definition nocase_eqb (a b : string) : bool :=
  strnicmp_zero a b && (utf8_length a =? utf8_length b)%nat.

(** The text up to and with its first NUL. *)
Fixpoint through_nul (s : string) : string :=
  match s with
  | EmptyString => EmptyString
  | String c s' =>
      if is_nul c then String c EmptyString else String c (through_nul s')
  end.

(** What NOCASE sees of a text: two texts are equal under NOCASE exactly
    when they have the same key. *)
Definition nocase_key (s : string) : string * nat :=
  (lower (through_nul s), utf8_length s).

(** The key AUTOINCREMENT gives the next row: one more than the largest
    key so far (no row of [users] is ever deleted by the application). *)
Definition next_id (users : list user_row) : Z :=
  1 + foldr (fun row m => Z.max (row_id row) m) 0 users.

Section Auth.

(** Everything outside the table: the file system with the spreadsheet of
    signups, the application log, the clock. *)
Variable World : Type.

(** Whether sqlite3 raises [sqlite3.Error] inside the [with] block of the
    call, and the [str] of that exception. *)
Variable sqlite_fault : World -> option exn.

(** CURRENT_TIMESTAMP. *)
Variable current_timestamp : World -> string.

(** [current_app.logger.error(message)]. *)
Variable logger_error : string -> World -> World.

(** [log_signup_to_excel]: spreadsheet input and output only; it catches
    every exception itself and hands it to the logger, so it returns
    normally. *)
Variable log_signup_to_excel : string -> World -> World.

(** [signup_user].  The rows are only changed by the INSERT; when sqlite3
    raises, the [with] block rolls back. *)
Definition signup_user (username password : string)
    (users : list user_row) (w : World)
    : (bool * string) * (list user_row * World) :=
  let username := strip username in
  let password := strip password in
  if (String.length password <? 4)%nat
  then ((false, "Password must be at least 4 characters"), (users, w))
  else if (String.length username <? 3)%nat
  then ((false, "Username must be at least 3 characters"), (users, w))
  else
    match sqlite_fault w with
    | Some e =>
        let error_msg := "Database error: " +:+ e in
        ((false, error_msg), (users, logger_error error_msg w))
    | None =>
        (* SELECT id FROM users WHERE username = ? COLLATE NOCASE *)
        if existsb (fun row => nocase_eqb (row_username row) username) users
        then ((false, "Username already exists"), (users, w))
        else
          (* INSERT INTO users (username, password) VALUES (?, ?) *)
          let row := {| row_id := next_id users;
                        row_username := username;
                        row_password := password;
                        row_created_at := current_timestamp w |} in
          ((true, "Signup successful"),
           (users ++ [row], log_signup_to_excel username w))
    end.

(** [login_user]: SELECT id FROM users WHERE username = ? AND password = ?.
    The column [username] compares under NOCASE, [password] exactly. *)
Definition login_user (username password : string)
    (users : list user_row) (w : World) : bool * World :=
  match sqlite_fault w with
  | Some e =>
      (false, logger_error ("Login error for " +:+ username +:+ ": " +:+ e) w)
  | None =>
      (existsb (fun row => nocase_eqb (row_username row) username
                           && String.eqb (row_password row) password) users,
       w)
  end.

(** [get_user_id] of auth.py: SELECT id FROM users WHERE username = ?, then
    [result[0] if result else None]. *)
Definition get_user_id (username : string)
    (users : list user_row) (w : World) : option Z * World :=
  match sqlite_fault w with
  | Some e =>
      (None,
       logger_error ("Database error while getting user ID for " +:+ username
                     +:+ ": " +:+ e) w)
  | None =>
      (option_map row_id
         (find (fun row => nocase_eqb (row_username row) username) users),
       w)
  end.

End Auth.

Arguments signup_user {World} sqlite_fault current_timestamp logger_error
  log_signup_to_excel username password users w.
Arguments login_user {World} sqlite_fault logger_error username password
  users w.
Arguments get_user_id {World} sqlite_fault logger_error username users w.

(** What [signup_user] guarantees of every row it has written: the name and
    the password are stripped, long enough, and the key is positive. *)
Definition row_ok (row : user_row) : Prop :=
  strip (row_username row) = row_username row
  /\ (3 <= String.length (row_username row))%nat
  /\ strip (row_password row) = row_password row
  /\ (4 <= String.length (row_password row))%nat
  /\ 0 < row_id row.

(** The table as [signup_user] keeps it: no two names equal under NOCASE,
    no two rows with the same key, every row as above. *)
Definition users_ok (users : list user_row) : Prop :=
  NoDup (map (fun row => nocase_key (row_username row)) users)
  /\ NoDup (map row_id users)
  /\ Forall row_ok users.

(** A world for the examples: no fault, a fixed clock, no log. *)
Definition quiet_fault : unit -> option exn := fun _ => None.
Definition fixed_clock : unit -> string := fun _ => "2024-01-01 00:00:00".
Definition no_log : string -> unit -> unit := fun _ w => w.

(** * report.py: what [save_combined_report] writes about security *)

(** [for x in v]: the items of a list, the characters of a string; an
    integer is not iterable. *)
Definition iterate (v : pyval) : exn + list pyval :=
  match v with
  | VList l => inr (map VStr l)
  | VStr s => inr (map (fun c => VStr (String c EmptyString))
                     (String.list_ascii_of_string s))
  | VInt _ => inl "'int' object is not iterable"
  end.

(** [d[k]] outside the monad. *)
Definition dict_getitem (d : dict) (k : string) : exn + pyval :=
  match d !! k with
  | Some v => inr v
  | None => inl ("'" +:+ k +:+ "'")
  end.

(** The rows [save_combined_report] appends to the sheet for
    [security_data] (from "Security Metrics" on), or the exception raised
    on the way; the workbook is saved only after the last row. *)
Definition security_rows (security_data : dict) : exn + list (list pyval) :=
  match dict_getitem security_data "security_score" with
  | inl e => inl e
  | inr score =>
  match dict_getitem security_data "risk_level" with
  | inl e => inl e
  | inr risk =>
  match dict_getitem security_data "vulnerability_count" with
  | inl e => inl e
  | inr count =>
  match dict_getitem security_data "security_issues" with
  | inl e => inl e
  | inr issues =>
  match iterate issues with
  | inl e => inl e
  | inr items =>
      inr ([[];
            [VStr "Security Assessment"];
            [VStr "Security Score"; VStr "Risk Level";
             VStr "Vulnerability Count"];
            [score; risk; count];
            [];
            [VStr "Security Issues Found"]]
           ++ map (fun issue => [issue]) items)
  end end end end end.

(** * The nodes of a tree *)

(** [n] is [m] or lies below it. *)
Inductive descendant (n : node) : node -> Prop :=
| descendant_self : descendant n n
| descendant_child m c :
    In c (iter_child_nodes m) -> descendant n c -> descendant n m.

(** A table with one account, for the examples. *)
Definition alice : user_row :=
  {| row_id := 1; row_username := "Alice"; row_password := "s3cret";
     row_created_at := "2024-01-01 00:00:00" |}.

Definition bob : user_row :=
  {| row_id := 2; row_username := "bob"; row_password := "hunter2";
     row_created_at := "2024-01-01 00:00:00" |}.

(** The text holds no NUL. *)
Definition no_nul (s : string) : bool :=
  all_chars (fun c => negb (is_nul c)) s.

(** The text of one NUL, and a table whose one name holds a NUL. *)
Definition nul : string := String "000" EmptyString.

Definition abc_def : user_row :=
  {| row_id := 1; row_username := "abc" +:+ nul +:+ "def";
     row_password := "pw12"; row_created_at := "2024-01-01 00:00:00" |}.

(** [a] and [b] differ at most in the case of the letters a-z of ASCII. *)
Fixpoint same_letters (a b : string) : bool :=
  match a, b with
  | EmptyString, EmptyString => true
  | String c a', String d b' =>
      Ascii.eqb (lower_char c) (lower_char d) && same_letters a' b'
  | _, _ => false
  end.

(** * The calls of a tree *)

(** The calls of a bare catalog name that a tree holds, with their lines:
    the call itself, then those in its callee, arguments and keywords. *)
Fixpoint catalog_calls (n : node) : list (string * Z) :=
  match n with
  | Call lineno func args keywords =>
      match func with
      | Name _ id => if list_in id dangerous_funcs then [(id, lineno)] else []
      | _ => []
      end
      ++ catalog_calls func
      ++ flat_map catalog_calls args
      ++ flat_map catalog_calls keywords
  | Name _ _ => []
  | Attribute _ value _ => catalog_calls value
  | Node children => flat_map catalog_calls children
  end.

(** A three-line file whose third line prints the result of eval(x): the
    call of eval is an argument of the call of print. *)
Definition nested_eval_source : string :=
  "x = 1" +:+ nl +:+ "y = 2" +:+ nl +:+ "print(eval(x))" +:+ nl.

Definition nested_eval_tree : node :=
  Node [Node [Name 1 "x"; Node []];
        Node [Name 2 "y"; Node []];
        Node [Call 3 (Name 3 "print")
                [Call 3 (Name 3 "eval") [Name 3 "x"] []] []]].
(** * Properties *)

(** ** Text *)

Lemma app_String c s t : String c s +:+ t = String c (s +:+ t).
Proof. reflexivity. Qed.

Lemma app_empty_l s : "" +:+ s = s.
Proof. reflexivity. Qed.

Lemma app_empty_r s : s +:+ "" = s.
Proof. induction s as [|c s IH]; [reflexivity|]. rewrite app_String, IH. reflexivity. Qed.

Lemma str_app_assoc s t u : (s +:+ t) +:+ u = s +:+ (t +:+ u).
Proof.
  induction s as [|c s IH]; [reflexivity|].
  rewrite !app_String, IH. reflexivity.
Qed.

Lemma app_eq_empty s t : s +:+ t = "" -> s = "" /\ t = "".
Proof. destruct s; [intros; split; auto | discriminate]. Qed.

(** A concatenation that starts with [c]: either the left part is empty or
    it starts with [c]. *)
Lemma app_eq_String s t c u :
  s +:+ t = String c u ->
  (s = "" /\ t = String c u) \/ (exists s', s = String c s' /\ u = s' +:+ t).
Proof.
  destruct s as [|a s]; [left; split; auto|].
  rewrite app_String. intros [= -> <-]. right. eauto.
Qed.

Lemma startswith_app n b : startswith n (n +:+ b) = true.
Proof.
  induction n as [|a n IH]; [reflexivity|].
  rewrite app_String. simpl. rewrite Ascii.eqb_refl. exact IH.
Qed.

Lemma startswith_inv n h : startswith n h = true -> exists b, h = n +:+ b.
Proof.
  revert h. induction n as [|a n IH]; intros h H.
  - exists h. reflexivity.
  - destruct h as [|b h]; [discriminate|]. simpl in H.
    destruct (Ascii.eqb_spec a b) as [->|]; [|discriminate].
    destruct (IH _ H) as [t ->]. exists t. reflexivity.
Qed.

Lemma str_in_intro n a b : str_in n (a +:+ n +:+ b) = true.
Proof.
  induction a as [|c a IH].
  - rewrite app_empty_l.
    assert (H : startswith n (n +:+ b) = true) by apply startswith_app.
    destruct (n +:+ b); simpl; rewrite H; reflexivity.
  - rewrite app_String. simpl. rewrite IH. apply orb_true_r.
Qed.

Lemma str_in_inv n h : str_in n h = true -> exists a b, h = a +:+ n +:+ b.
Proof.
  induction h as [|c h IH]; simpl; intros H.
  - rewrite orb_false_r in H. apply startswith_inv in H as [b ->].
    exists "", b. reflexivity.
  - apply orb_true_iff in H as [H|H].
    + apply startswith_inv in H as [b ->]. exists "", b. reflexivity.
    + destruct (IH H) as (a & b & ->). exists (String c a), b. reflexivity.
Qed.

(** [in] on strings is transitive. *)
Lemma str_in_trans a b c :
  str_in a b = true -> str_in b c = true -> str_in a c = true.
Proof.
  intros (p & q & ->)%str_in_inv (u & v & ->)%str_in_inv.
  replace (u +:+ (p +:+ a +:+ q) +:+ v) with ((u +:+ p) +:+ a +:+ (q +:+ v))
    by (rewrite !str_app_assoc; reflexivity).
  apply str_in_intro.
Qed.

Lemma lines_head s l ls : lines s = l :: ls -> exists b, s = l +:+ b.
Proof.
  revert l ls. induction s as [|c s IH]; intros l ls H.
  - injection H as <- <-. exists "". reflexivity.
  - simpl in H. destruct (Ascii.eqb c "010").
    + injection H as <- <-. exists (String c s). reflexivity.
    + destruct (lines s) as [|l0 ls0] eqn:E.
      * injection H as <- <-. exists s. reflexivity.
      * injection H as <- <-. destruct (IH _ _ eq_refl) as [b ->].
        exists b. reflexivity.
Qed.

(** A line of a text is a substring of the text. *)
Lemma lines_sub s : forall i l,
  lines s !! i = Some l -> exists a b, s = a +:+ l +:+ b.
Proof.
  induction s as [|c s IH]; intros i l H.
  - destruct i; simpl in H; [|discriminate]. injection H as <-.
    exists "", "". reflexivity.
  - simpl in H. destruct (Ascii.eqb c "010").
    + destruct i as [|i]; simpl in H.
      * injection H as <-. exists "", (String c s). reflexivity.
      * destruct (IH _ _ H) as (a & b & ->). exists (String c a), b. reflexivity.
    + destruct (lines s) as [|l0 ls] eqn:E.
      * destruct i; simpl in H; [|discriminate]. injection H as <-.
        exists "", s. reflexivity.
      * destruct i as [|i]; simpl in H.
        -- injection H as <-.
           destruct (lines_head _ _ _ E) as [b ->].
           exists "", b. reflexivity.
        -- destruct (IH (S i) l H) as (a & b & ->).
           exists (String c a), b. reflexivity.
Qed.

(** ** Regular expressions: the matcher decides the language *)

Section Regex.

Variable ic : bool.

Lemma nullable_complete r s : re_lang ic r s -> s = "" -> nullable r = true.
Proof.
  induction 1 as [|cs c Hc|r1 r2 s1 s2 H1 IH1 H2 IH2|r1 r2 s H IH|r1 r2 s H IH
                  |r|r s1 s2 H1 IH1 H2 IH2]; intros E; simpl; try reflexivity.
  - discriminate.
  - apply app_eq_empty in E as [-> ->]. rewrite IH1, IH2; reflexivity.
  - rewrite IH; auto.
  - rewrite IH; auto using orb_true_r.
Qed.

Lemma nullable_sound r : nullable r = true -> re_lang ic r "".
Proof.
  induction r as [| |cs|r1 IH1 r2 IH2|r1 IH1 r2 IH2|r IH]; simpl; intros H;
    try discriminate.
  - constructor.
  - apply andb_true_iff in H as [H1 H2].
    change "" with ("" +:+ ""). constructor; auto.
  - apply orb_true_iff in H as [H|H]; [apply L_AltL | apply L_AltR]; auto.
  - constructor.
Qed.

Lemma deriv_complete r s : re_lang ic r s ->
  forall c t, s = String c t -> re_lang ic (deriv ic c r) t.
Proof.
  induction 1 as [|cs x Hx|r1 r2 s1 s2 H1 IH1 H2 IH2|r1 r2 s H IH|r1 r2 s H IH
                  |r|r s1 s2 H1 IH1 H2 IH2]; intros c t E; simpl.
  - discriminate.
  - injection E as -> <-. rewrite Hx. constructor.
  - apply app_eq_String in E as [[-> ->]|(s1' & -> & ->)].
    + rewrite (nullable_complete _ _ H1 eq_refl).
      apply L_AltR. eapply IH2; reflexivity.
    + destruct (nullable r1).
      * apply L_AltL. constructor; [eapply IH1; reflexivity | exact H2].
      * constructor; [eapply IH1; reflexivity | exact H2].
  - apply L_AltL. eauto.
  - apply L_AltR. eauto.
  - discriminate.
  - apply app_eq_String in E as [[-> ->]|(s1' & -> & ->)].
    + eapply IH2; reflexivity.
    + constructor; [eapply IH1; reflexivity | exact H2].
Qed.

Lemma deriv_sound c r : forall t,
  re_lang ic (deriv ic c r) t -> re_lang ic r (String c t).
Proof.
  induction r as [| |cs|r1 IH1 r2 IH2|r1 IH1 r2 IH2|r IH]; simpl; intros t H.
  - inversion H.
  - inversion H.
  - destruct (cset_match ic cs c) eqn:E; inversion H; subst.
    constructor. exact E.
  - destruct (nullable r1) eqn:N.
    + inversion H as [| | |? ? ? H'|? ? ? H'| |]; subst.
      * inversion H' as [| |? ? s1 s2 Ha Hb| | | |]; subst.
        rewrite <- app_String. constructor; auto.
      * change (String c t) with ("" +:+ String c t).
        constructor; [apply nullable_sound; exact N | auto].
    + inversion H as [| |? ? s1 s2 Ha Hb| | | |]; subst.
      rewrite <- app_String. constructor; auto.
  - inversion H; subst; [apply L_AltL | apply L_AltR]; auto.
  - inversion H as [| |? ? s1 s2 Ha Hb| | | |]; subst.
    rewrite <- app_String. constructor; auto.
Qed.

(** [re_match] succeeds exactly when a prefix is in the language. *)
Lemma re_match_spec s : forall r,
  re_match ic r s = true <-> exists p t, s = p +:+ t /\ re_lang ic r p.
Proof.
  induction s as [|c s IH]; intros r; simpl.
  - rewrite orb_false_r. split.
    + intros H. exists "", "". split; [reflexivity | apply nullable_sound; exact H].
    + intros (p & t & E & H). symmetry in E. apply app_eq_empty in E as [-> ->].
      eapply nullable_complete; eauto.
  - rewrite orb_true_iff, IH. split.
    + intros [H|(p & t & -> & H)].
      * exists "", (String c s). split; [reflexivity | apply nullable_sound; exact H].
      * exists (String c p), t. split; [reflexivity | apply deriv_sound; exact H].
    + intros (p & t & E & H). symmetry in E.
      apply app_eq_String in E as [[-> ->]|(p' & -> & ->)].
      * left. eapply nullable_complete; eauto.
      * right. exists p', t. split; [reflexivity|].
        eapply deriv_complete; eauto.
Qed.

(** [re_search] succeeds exactly when a substring is in the language. *)
Lemma re_search_spec r s :
  re_search ic r s = true
  <-> exists a p t, s = a +:+ p +:+ t /\ re_lang ic r p.
Proof.
  induction s as [|c s IH]; cbn [re_search].
  - rewrite orb_false_r, re_match_spec. split.
    + intros (p & t & E & H). exists "", p, t. auto.
    + intros (a & p & t & E & H). symmetry in E.
      apply app_eq_empty in E as [-> E]. exists p, t. auto.
  - rewrite orb_true_iff, re_match_spec, IH. split.
    + intros [(p & t & E & H)|(a & p & t & -> & H)].
      * exists "", p, t. auto.
      * exists (String c a), p, t. auto.
    + intros (a & p & t & E & H). destruct a as [|x a].
      * left. exists p, t. auto.
      * right. rewrite app_String in E. injection E as -> ->.
        exists a, p, t. auto.
Qed.

Lemma lang_Word w : re_lang false (Word w) w.
Proof.
  induction w as [|c w IH]; simpl; [constructor|].
  change (String c w) with (String c "" +:+ w).
  constructor; [|exact IH]. constructor. simpl. apply Ascii.eqb_refl.
Qed.

(** [cs*] takes any run of characters of the class. *)
Lemma lang_Star_class cs s :
  all_chars (cset_match ic cs) s = true -> re_lang ic (Star (Sym cs)) s.
Proof.
  induction s as [|c s IH]; simpl; intros H; [constructor|].
  apply andb_true_iff in H as [Hc Hs].
  change (String c s) with (String c "" +:+ s).
  constructor; [constructor; exact Hc | auto].
Qed.

End Regex.

(** ** [ast.walk] *)

Lemma total_size_app xs ys : total_size (xs ++ ys) = (total_size xs + total_size ys)%nat.
Proof. unfold total_size. rewrite map_app, list_sum_app. reflexivity. Qed.

Lemma node_size_children n : node_size n = S (total_size (iter_child_nodes n)).
Proof.
  destruct n as [ln f a k|ln id|ln v a|ch]; unfold total_size; simpl;
    rewrite ?map_app, ?list_sum_app; lia.
Qed.

(** The walk yields every node of the queue and of its descendants: the
    fuel [walk] gives is enough for the loop to empty the queue. *)
Lemma walk_queue_length fuel : forall todo,
  (total_size todo <= fuel)%nat ->
  length (walk_queue fuel todo) = total_size todo.
Proof.
  induction fuel as [|fuel IH]; intros todo Hf.
  - simpl. lia.
  - destruct todo as [|n rest]; [reflexivity|].
    simpl. rewrite IH.
    + rewrite total_size_app. unfold total_size at 3. simpl.
      fold (total_size rest). rewrite node_size_children. lia.
    + rewrite total_size_app. unfold total_size in Hf. simpl in Hf.
      fold (total_size rest) in Hf. rewrite node_size_children in Hf. lia.
Qed.

Lemma walk_length tree : length (walk tree) = node_size tree.
Proof.
  unfold walk. rewrite walk_queue_length; unfold total_size; simpl; lia.
Qed.

(** More fuel than that changes nothing. *)
Lemma walk_queue_fuel f1 : forall f2 todo,
  (total_size todo <= f1)%nat -> (total_size todo <= f2)%nat ->
  walk_queue f1 todo = walk_queue f2 todo.
Proof.
  induction f1 as [|f1 IH]; intros f2 todo H1 H2.
  - destruct todo as [|n rest].
    + destruct f2; reflexivity.
    + unfold total_size in H1. simpl in H1. rewrite node_size_children in H1. lia.
  - destruct todo as [|n rest]; [destruct f2; reflexivity|].
    assert (E : total_size (n :: rest)
                = S (total_size (rest ++ iter_child_nodes n))).
    { rewrite total_size_app. unfold total_size at 1. simpl.
      fold (total_size rest). rewrite node_size_children. lia. }
    destruct f2 as [|f2]; [lia|].
    simpl. f_equal. apply IH; lia.
Qed.

Lemma identifiers_ok_children n :
  identifiers_ok n = true -> forallb identifiers_ok (iter_child_nodes n) = true.
Proof.
  destruct n as [ln f a k|ln id|ln v a|ch]; simpl; intros H.
  - apply andb_true_iff in H as [H Hk]. apply andb_true_iff in H as [Hf Ha].
    rewrite Hf, forallb_app, Ha, Hk. reflexivity.
  - reflexivity.
  - rewrite H. reflexivity.
  - exact H.
Qed.

Lemma walk_queue_identifiers fuel : forall todo,
  forallb identifiers_ok todo = true ->
  forallb identifiers_ok (walk_queue fuel todo) = true.
Proof.
  induction fuel as [|fuel IH]; intros todo H; [reflexivity|].
  destruct todo as [|n rest]; [reflexivity|].
  simpl in *. apply andb_true_iff in H as [Hn Hr]. rewrite Hn. simpl.
  apply IH. rewrite forallb_app, Hr. simpl.
  apply identifiers_ok_children. exact Hn.
Qed.

(** The callee names the Structural Scanner can report for a tree that
    [ast.parse] built. *)
Lemma structural_hit_names tree hit :
  identifiers_ok tree = true ->
  In hit (flat_map structural_hit (walk tree)) ->
  fst hit = "eval" \/ fst hit = "exec".
Proof.
  intros Hok Hin. apply in_flat_map in Hin as (n & Hn & Hhit).
  assert (Hw : forallb identifiers_ok (walk tree) = true).
  { apply walk_queue_identifiers. simpl. rewrite Hok. reflexivity. }
  rewrite forallb_forall in Hw. specialize (Hw n Hn).
  destruct n as [ln f a k|ln id|ln v a|ch]; try (simpl in Hhit; contradiction).
  destruct f as [ln1 f1 a1 k1|ln1 id|ln1 v a1|ch];
    try (simpl in Hhit; contradiction).
  simpl in Hw. unfold structural_hit in Hhit. apply andb_true_iff in Hw as [Hw _]. apply andb_true_iff in Hw as [Hid _].
  destruct (list_in id dangerous_funcs) eqn:E; [|contradiction].
  destruct Hhit as [<-|[]]. simpl.
  unfold list_in, dangerous_funcs in E. simpl in E.
  repeat (apply orb_true_iff in E as [E|E];
          [apply String.eqb_eq in E; subst id; auto;
           try (exfalso; vm_compute in Hid; discriminate)|]).
  discriminate.
Qed.

(** ** The report dictionary *)

Lemma mk_report_issues l c r s :
  mk_report l c r s !! "security_issues" = Some (VList l).
Proof. reflexivity. Qed.

Lemma mk_report_score l c r s :
  mk_report l c r s !! "security_score" = Some (VInt s).
Proof. reflexivity. Qed.

Lemma mk_report_set_issues l c r s l' :
  <["security_issues" := VList l']> (mk_report l c r s) = mk_report l' c r s.
Proof. reflexivity. Qed.

Lemma mk_report_set_score l c r s s' :
  <["security_score" := VInt s']> (mk_report l c r s) = mk_report l c r s'.
Proof. reflexivity. Qed.

Lemma mk_report_set_count l c r s c' :
  <["vulnerability_count" := VInt c']> (mk_report l c r s) = mk_report l c' r s.
Proof. reflexivity. Qed.

Lemma mk_report_set_risk l c r s r' :
  <["risk_level" := VStr r']> (mk_report l c r s) = mk_report l c r' s.
Proof. reflexivity. Qed.

(** ** Running the monadic code on a report of the usual shape *)

Lemma bind_inr {A B} (m : M A) (k : A -> M B) d a d' :
  m d = (inr a, d') -> bind m k d = k a d'.
Proof. unfold bind. intros ->. reflexivity. Qed.

Lemma bind_inl {A B} (m : M A) (k : A -> M B) d e d' :
  m d = (inl e, d') -> bind m k d = (inl e, d').
Proof. unfold bind. intros ->. reflexivity. Qed.

Lemma penalties_app fs gs : penalties (fs ++ gs) = penalties fs + penalties gs.
Proof.
  unfold penalties. induction fs as [|f fs IH]; simpl; [reflexivity|].
  rewrite IH. lia.
Qed.

(** One finding: the label is appended, the penalty subtracted. *)
Lemma add_finding_run x n l c r s :
  (append_to "security_issues" x ;; isub "security_score" n)%py
    (mk_report l c r s)
  = (inr tt, mk_report (l ++ [x]) c r (s - n)).
Proof. reflexivity. Qed.

Lemma when_finding_run (b : bool) x n l c r s :
  when b (append_to "security_issues" x ;; isub "security_score" n)%py
    (mk_report l c r s)
  = adds (if b then [(x, n)] else []) l c r s.
Proof.
  unfold adds. destruct b; simpl.
  - rewrite add_finding_run. unfold penalties. simpl. do 2 f_equal. lia.
  - unfold ret, penalties. simpl. rewrite app_nil_r. do 2 f_equal. lia.
Qed.

Lemma for_each_findings_run {A} (body : A -> M unit) (hit : A -> list finding)
    (xs : list A) :
  (forall x l c r s, body x (mk_report l c r s) = adds (hit x) l c r s) ->
  forall l c r s,
    for_each xs body (mk_report l c r s) = adds (flat_map hit xs) l c r s.
Proof.
  intros Hbody. induction xs as [|x xs IH]; intros l c r s.
  - unfold adds, penalties. simpl. unfold ret. rewrite app_nil_r.
    do 2 f_equal. lia.
  - simpl for_each. erewrite bind_inr by apply Hbody.
    rewrite IH. unfold adds. simpl flat_map.
    rewrite map_app, penalties_app, app_assoc. do 2 f_equal. lia.
Qed.

Lemma update_risk_level_run l c s :
  update_risk_level (mk_report l c "Low" s)
  = (inr tt, mk_report l (Z.of_nat (length l)) (risk_level_of s) s).
Proof.
  unfold update_risk_level, risk_level_of.
  erewrite bind_inr by reflexivity.
  erewrite bind_inr by reflexivity.
  erewrite bind_inr by reflexivity.
  destruct (s <? 50); [reflexivity|].
  erewrite bind_inr by reflexivity.
  destruct (s <? 80); reflexivity.
Qed.

Lemma flat_map_map_inner {A B C} (g : B -> C) (h : A -> list B) (xs : list A) :
  flat_map (fun x => map g (h x)) xs = map g (flat_map h xs).
Proof.
  induction xs as [|x xs IH]; simpl; [reflexivity|].
  rewrite map_app, IH. reflexivity.
Qed.

Lemma sub4 (s a b c d : Z) : s - a - b - c - d = s - (a + (b + c) + d).
Proof. lia. Qed.

Lemma aggregate_eq (fs : list finding) l s :
  l = map fst fs -> s = 100 - penalties fs ->
  mk_report l (Z.of_nat (length l)) (risk_level_of s) s = aggregate fs.
Proof. intros -> ->. unfold aggregate. rewrite length_map. reflexivity. Qed.

(** ** The analyzers compute the aggregate of the scanners' findings *)

Section Pipeline.

Variable open_read : string -> exn + string.
Variable ast_parse : string -> exn + node.
Variable Statement : Type.
Variable sqlparse_parse : string -> exn + list Statement.
Variable get_type : Statement -> string.

Lemma structural_pass_run content l c r s :
  try_except_pass
    (tree <- lift (ast_parse content) ;;
     for_each (walk tree) (fun n =>
       match n with
       | Call lineno (Name _ id) _ _ =>
           when (list_in id dangerous_funcs)
             (append_to "security_issues"
                ("Dangerous function call: " +:+ id +:+ " at line "
                 +:+ pretty lineno) ;;
              isub "security_score" 10)
       | _ => ret tt
       end))%py (mk_report l c r s)
  = adds (structural_scanner (ast_parse content)) l c r s.
Proof.
  unfold try_except_pass, structural_scanner.
  destruct (ast_parse content) as [e|tree]; simpl lift.
  - unfold bind, raise, adds, penalties. simpl. rewrite app_nil_r.
    do 2 f_equal. lia.
  - erewrite bind_inr by reflexivity.
    rewrite (for_each_findings_run _
               (fun n => map (fun hit => (structural_label hit, 10))
                           (structural_hit n))).
    + rewrite flat_map_map_inner. reflexivity.
    + intros n l' c' r' s'.
      destruct n as [lineno func args kws|ln id|ln v a|ch];
        try (unfold adds, ret, penalties; simpl; rewrite app_nil_r;
             do 2 f_equal; lia).
      destruct func as [ln1 f1 a1 k1|ln1 id|ln1 v a|ch];
        try (unfold adds, ret, penalties; simpl; rewrite app_nil_r;
             do 2 f_equal; lia).
      rewrite when_finding_run. unfold structural_hit.
      destruct (list_in id dangerous_funcs); reflexivity.
Qed.

Lemma classification_pass_run content l c r s :
  try_except_pass
    (statements <- lift (sqlparse_parse content) ;;
     for_each statements (fun stmt =>
       when (String.eqb (get_type stmt) "UNKNOWN")
         (append_to "security_issues" "Potentially malformed SQL statement" ;;
          isub "security_score" 10)))%py (mk_report l c r s)
  = adds (statement_classifier
            (statement_types get_type (sqlparse_parse content))) l c r s.
Proof.
  unfold try_except_pass, statement_types.
  destruct (sqlparse_parse content) as [e|statements]; simpl lift.
  - unfold bind, raise, adds, penalties. simpl. rewrite app_nil_r.
    do 2 f_equal. lia.
  - erewrite bind_inr by reflexivity.
    rewrite (for_each_findings_run _
               (fun stmt => if String.eqb (get_type stmt) "UNKNOWN"
                            then [("Potentially malformed SQL statement", 10)]
                            else [])).
    + unfold adds, statement_classifier. rewrite flat_map_concat_map.
      rewrite (flat_map_concat_map _ (map get_type statements)).
      rewrite map_map. reflexivity.
    + intros stmt l' c' r' s'. apply when_finding_run.
Qed.

(** The Python analysis of a readable file. *)
Lemma python_body_run filepath content :
  open_read filepath = inr content ->
  python_body open_read ast_parse filepath initial_report
  = (inr tt, aggregate (pattern_scanner_py content
                        ++ structural_scanner (ast_parse content))).
Proof.
  intros Hread. unfold python_body, initial_report. rewrite Hread.
  erewrite bind_inr by reflexivity.
  erewrite bind_inr.
  2:{ apply (for_each_findings_run _
               (fun func => if str_in func content
                            then [("Dangerous function used: " +:+ func, 10)]
                            else [])).
      intros. apply when_finding_run. }
  erewrite bind_inr by apply when_finding_run.
  erewrite bind_inr by apply when_finding_run.
  erewrite bind_inr by apply structural_pass_run.
  rewrite update_risk_level_run.
  f_equal. apply aggregate_eq; unfold pattern_scanner_py;
    unfold dangerous_function_findings, command_injection_findings,
      credential_findings;
    rewrite ?map_app, ?penalties_app, ?app_nil_l, <- ?app_assoc;
    [reflexivity | apply sub4].
Qed.

(** The SQL analysis of a readable file. *)
Lemma sql_body_run filepath content :
  open_read filepath = inr content ->
  sql_body open_read sqlparse_parse get_type filepath initial_report
  = (inr tt, aggregate (pattern_scanner_sql content
                        ++ statement_classifier
                             (statement_types get_type
                                (sqlparse_parse content)))).
Proof.
  intros Hread. unfold sql_body, initial_report. rewrite Hread.
  erewrite bind_inr by reflexivity.
  erewrite bind_inr by apply when_finding_run.
  erewrite bind_inr by apply when_finding_run.
  erewrite bind_inr.
  2:{ apply (for_each_findings_run _
               (fun op => if str_in op (upper content)
                          then [("Sensitive operation: " +:+ op, 15)]
                          else [])).
      intros. apply when_finding_run. }
  erewrite bind_inr by apply classification_pass_run.
  rewrite update_risk_level_run.
  f_equal. apply aggregate_eq; unfold pattern_scanner_sql;
    rewrite ?map_app, ?penalties_app, ?app_nil_l, <- ?app_assoc;
    [reflexivity | apply sub4].
Qed.

End Pipeline.

(** ** What the analyzers return *)

Section Results.

Variable open_read : string -> exn + string.
Variable ast_parse : string -> exn + node.
Variable Statement : Type.
Variable sqlparse_parse : string -> exn + list Statement.
Variable get_type : Statement -> string.

Lemma analyze_python_security_readable filepath content :
  open_read filepath = inr content ->
  analyze_python_security open_read ast_parse filepath
  = aggregate (pattern_scanner_py content
               ++ structural_scanner (ast_parse content)).
Proof.
  intros H. unfold analyze_python_security, except_Exception.
  rewrite (python_body_run _ _ _ _ H). reflexivity.
Qed.

Lemma analyze_sql_security_readable filepath content :
  open_read filepath = inr content ->
  analyze_sql_security open_read sqlparse_parse get_type filepath
  = aggregate (pattern_scanner_sql content
               ++ statement_classifier
                    (statement_types get_type (sqlparse_parse content))).
Proof.
  intros H. unfold analyze_sql_security, except_Exception.
  rewrite (sql_body_run _ _ _ _ _ _ H). reflexivity.
Qed.

Lemma python_body_unreadable filepath e :
  open_read filepath = inl e ->
  python_body open_read ast_parse filepath initial_report
  = (inl e, initial_report).
Proof. intros H. unfold python_body. rewrite H. reflexivity. Qed.

Lemma sql_body_unreadable filepath e :
  open_read filepath = inl e ->
  sql_body open_read sqlparse_parse get_type filepath initial_report
  = (inl e, initial_report).
Proof. intros H. unfold sql_body. rewrite H. reflexivity. Qed.

Lemma analyze_python_security_unreadable filepath e :
  open_read filepath = inl e ->
  analyze_python_security open_read ast_parse filepath
  = <["error" := VStr ("Security analysis failed: " +:+ e)]> initial_report.
Proof.
  intros H. unfold analyze_python_security, except_Exception.
  rewrite (python_body_unreadable _ _ H). reflexivity.
Qed.

Lemma analyze_sql_security_unreadable filepath e :
  open_read filepath = inl e ->
  analyze_sql_security open_read sqlparse_parse get_type filepath
  = <["error" := VStr ("Security analysis failed: " +:+ e)]> initial_report.
Proof.
  intros H. unfold analyze_sql_security, except_Exception.
  rewrite (sql_body_unreadable _ _ H). reflexivity.
Qed.

End Results.

(** ** The catalog penalties of the scanners' findings *)

Lemma Forall_flat_map {A B} (P : B -> Prop) (f : A -> list B) (xs : list A) :
  (forall x, In x xs -> Forall P (f x)) -> Forall P (flat_map f xs).
Proof.
  induction xs as [|x xs IH]; intros H; simpl; [constructor|].
  apply Forall_app. split; [apply H; left; reflexivity|].
  apply IH. intros y Hy. apply H. right. exact Hy.
Qed.

Lemma dangerous_function_findings_priced content :
  Forall priced (dangerous_function_findings content).
Proof.
  unfold dangerous_function_findings, dangerous_funcs. simpl flat_map.
  by_cases_on_tests; repeat constructor.
Qed.

Lemma command_injection_findings_priced content :
  Forall priced (command_injection_findings content).
Proof.
  unfold command_injection_findings. by_cases_on_tests; repeat constructor.
Qed.

Lemma credential_findings_priced content :
  Forall priced (credential_findings content).
Proof.
  unfold credential_findings. by_cases_on_tests; repeat constructor.
Qed.

Lemma pattern_scanner_py_priced content : Forall priced (pattern_scanner_py content).
Proof.
  unfold pattern_scanner_py.
  apply Forall_app; split; [|apply Forall_app; split].
  - apply dangerous_function_findings_priced.
  - apply command_injection_findings_priced.
  - apply credential_findings_priced.
Qed.

Lemma pattern_scanner_sql_priced content : Forall priced (pattern_scanner_sql content).
Proof.
  unfold pattern_scanner_sql, sensitive_ops. simpl flat_map.
  repeat (apply Forall_app; split); by_cases_on_tests; repeat constructor.
Qed.

Lemma structural_scanner_priced parsed : Forall priced (structural_scanner parsed).
Proof.
  destruct parsed as [e|tree]; simpl; [constructor|].
  apply Forall_map. apply Forall_forall. intros hit _. reflexivity.
Qed.

Lemma statement_classifier_priced types : Forall priced (statement_classifier types).
Proof.
  apply Forall_flat_map. intros t _.
  destruct (String.eqb t "UNKNOWN"); repeat constructor.
Qed.

Lemma priced_sum fs :
  Forall priced fs -> sumZ (map catalog_penalty (map fst fs)) = penalties fs.
Proof.
  induction 1 as [|f fs Hf _ IH]; [reflexivity|].
  unfold penalties in *. simpl. rewrite IH, Hf. reflexivity.
Qed.

Lemma aggregate_consistent fs : Forall priced fs -> report_consistent (aggregate fs).
Proof.
  intros H. exists (map fst fs). unfold aggregate.
  rewrite priced_sum by exact H. rewrite length_map.
  repeat split; reflexivity.
Qed.

Lemma unreadable_consistent v :
  report_consistent (<["error" := v]> initial_report).
Proof. exists []. repeat split; reflexivity. Qed.

(** * The claims *)

Lemma penalties_nonneg fs : Forall (fun f : finding => 0 <= snd f) fs -> 0 <= penalties fs.
Proof.
  induction 1 as [|f fs Hf _ IH]; unfold penalties in *; simpl; lia.
Qed.

Lemma statement_classifier_nonneg types : 0 <= penalties (statement_classifier types).
Proof.
  apply penalties_nonneg. apply Forall_flat_map. intros t _.
  destruct (String.eqb t "UNKNOWN"); repeat constructor. simpl. lia.
Qed.

(** C1. For a supported file type the report has
    vulnerability_count = len(security_issues) and
    security_score = 100 - (sum of the catalog penalties of the issues),
    whether the file could be read or not; the score is not clamped: the
    file [overloaded_sql] gets a score of at most -10, whatever sqlparse
    makes of it. *)
Theorem C1_count_and_score
    (open_read : string -> exn + string) (ast_parse : string -> exn + node)
    (Statement : Type) (sqlparse_parse : string -> exn + list Statement)
    (get_type : Statement -> string) (filepath filetype : string) :
  filetype = "py" \/ filetype = "sql" ->
  report_consistent
    (generate_security_report open_read ast_parse sqlparse_parse get_type
       filepath filetype)
  /\ (open_read filepath = inr overloaded_sql ->
      exists score,
        generate_security_report open_read ast_parse sqlparse_parse get_type
          filepath "sql" !! "security_score" = Some (VInt score)
        /\ score <= -10).
Proof.
  intros Hft. split.
  - unfold generate_security_report.
    destruct Hft as [-> | ->]; simpl.
    + destruct (open_read filepath) as [e|content] eqn:E.
      * rewrite (analyze_python_security_unreadable _ _ _ _ E).
        apply unreadable_consistent.
      * rewrite (analyze_python_security_readable _ _ _ _ E).
        apply aggregate_consistent, Forall_app. split.
        -- apply pattern_scanner_py_priced.
        -- apply structural_scanner_priced.
    + destruct (open_read filepath) as [e|content] eqn:E.
      * rewrite (analyze_sql_security_unreadable _ _ _ _ _ _ E).
        apply unreadable_consistent.
      * rewrite (analyze_sql_security_readable _ _ _ _ _ _ E).
        apply aggregate_consistent, Forall_app. split.
        -- apply pattern_scanner_sql_priced.
        -- apply statement_classifier_priced.
  - intros E. unfold generate_security_report. simpl.
    rewrite (analyze_sql_security_readable _ _ _ _ _ _ E).
    eexists. split; [apply mk_report_score|].
    rewrite penalties_app.
    pose proof (statement_classifier_nonneg
                  (statement_types get_type (sqlparse_parse overloaded_sql))).
    change (penalties (pattern_scanner_sql overloaded_sql)) with 110. lia.
Qed.

Lemma C1_count_and_score_witness :
  ("sql" = "py" \/ "sql" = "sql")
  /\ one_file "upload.sql" overloaded_sql "upload.sql" = inr overloaded_sql
  /\ report_consistent
       (generate_security_report (one_file "upload.sql" overloaded_sql)
          parse_fails one_select type_of "upload.sql" "sql")
  /\ exists score,
       generate_security_report (one_file "upload.sql" overloaded_sql)
         parse_fails one_select type_of "upload.sql" "sql"
       !! "security_score" = Some (VInt score)
       /\ score <= -10.
Proof.
  split; [right; reflexivity|]. split; [reflexivity|].
  destruct (C1_count_and_score (one_file "upload.sql" overloaded_sql)
              parse_fails string one_select type_of "upload.sql" "sql")
    as [H1 H2]; [right; reflexivity|].
  split; [exact H1 | apply H2; reflexivity].
Defined.

Lemma risk_level_of_tiers score :
  (risk_level_of score = "Low" <-> 80 <= score)
  /\ (risk_level_of score = "Medium" <-> 50 <= score < 80)
  /\ (risk_level_of score = "High" <-> score < 50).
Proof.
  unfold risk_level_of.
  destruct (Z.ltb_spec score 50); [|destruct (Z.ltb_spec score 80)];
    repeat split; intros; try lia; try discriminate; reflexivity.
Qed.

(** C2. For a supported file type, risk_level is determined by the final
    security_score alone: Low iff score >= 80, Medium iff 50 <= score < 80,
    High iff score < 50 (so 50 gives Medium and 80 gives Low). *)
Theorem C2_risk_level_thresholds
    (open_read : string -> exn + string) (ast_parse : string -> exn + node)
    (Statement : Type) (sqlparse_parse : string -> exn + list Statement)
    (get_type : Statement -> string) (filepath filetype : string) :
  filetype = "py" \/ filetype = "sql" ->
  exists (score : Z) (risk : string),
    let report := generate_security_report open_read ast_parse sqlparse_parse
                    get_type filepath filetype in
    report !! "security_score" = Some (VInt score)
    /\ report !! "risk_level" = Some (VStr risk)
    /\ (risk = "Low" <-> 80 <= score)
    /\ (risk = "Medium" <-> 50 <= score < 80)
    /\ (risk = "High" <-> score < 50).
Proof.
  intros Hft.
  assert (Hagg : forall fs, exists score risk,
             aggregate fs !! "security_score" = Some (VInt score)
             /\ aggregate fs !! "risk_level" = Some (VStr risk)
             /\ (risk = "Low" <-> 80 <= score)
             /\ (risk = "Medium" <-> 50 <= score < 80)
             /\ (risk = "High" <-> score < 50)).
  { intros fs. exists (100 - penalties fs), (risk_level_of (100 - penalties fs)).
    split; [reflexivity|]. split; [reflexivity|]. apply risk_level_of_tiers. }
  assert (Herr : forall v, exists score risk,
             (<["error" := v]> initial_report : dict) !! "security_score"
             = Some (VInt score)
             /\ (<["error" := v]> initial_report : dict) !! "risk_level"
                = Some (VStr risk)
             /\ (risk = "Low" <-> 80 <= score)
             /\ (risk = "Medium" <-> 50 <= score < 80)
             /\ (risk = "High" <-> score < 50)).
  { intros v. exists 100, "Low". split; [reflexivity|]. split; [reflexivity|].
    apply (risk_level_of_tiers 100). }
  unfold generate_security_report. destruct Hft as [-> | ->]; simpl.
  - destruct (open_read filepath) as [e|content] eqn:E.
    + rewrite (analyze_python_security_unreadable _ _ _ _ E). apply Herr.
    + rewrite (analyze_python_security_readable _ _ _ _ E). apply Hagg.
  - destruct (open_read filepath) as [e|content] eqn:E.
    + rewrite (analyze_sql_security_unreadable _ _ _ _ _ _ E). apply Herr.
    + rewrite (analyze_sql_security_readable _ _ _ _ _ _ E). apply Hagg.
Qed.

Lemma C2_risk_level_thresholds_witness :
  ("py" = "py" \/ "py" = "sql")
  /\ exists (score : Z) (risk : string),
       let report := generate_security_report (one_file "upload.py" eval_source)
                       (parse_as eval_source eval_tree) one_select type_of
                       "upload.py" "py" in
       report !! "security_score" = Some (VInt score)
       /\ report !! "risk_level" = Some (VStr risk)
       /\ (risk = "Low" <-> 80 <= score)
       /\ (risk = "Medium" <-> 50 <= score < 80)
       /\ (risk = "High" <-> score < 50).
Proof.
  split; [left; reflexivity|].
  apply (C2_risk_level_thresholds (one_file "upload.py" eval_source)
           (parse_as eval_source eval_tree) string one_select type_of
           "upload.py" "py").
  left; reflexivity.
Defined.

(** ** [ast.walk] reaches every node *)

Lemma walk_queue_closed fuel : forall todo,
  (total_size todo <= fuel)%nat ->
  (forall x, In x todo -> In x (walk_queue fuel todo))
  /\ (forall m c, In m (walk_queue fuel todo) ->
                  In c (iter_child_nodes m) -> In c (walk_queue fuel todo)).
Proof.
  induction fuel as [|fuel IH]; intros todo Hf.
  - destruct todo as [|n rest].
    + split; [intros x [] | intros m c []].
    + unfold total_size in Hf. simpl in Hf.
      rewrite node_size_children in Hf. lia.
  - destruct todo as [|n rest].
    + split; [intros x [] | intros m c []].
    + assert (Hsize : (total_size (rest ++ iter_child_nodes n) <= fuel)%nat).
      { rewrite total_size_app. unfold total_size in Hf. simpl in Hf.
        fold (total_size rest) in Hf. rewrite node_size_children in Hf. lia. }
      destruct (IH _ Hsize) as [Hin Hclosed].
      change (walk_queue (S fuel) (n :: rest))
        with (n :: walk_queue fuel (rest ++ iter_child_nodes n)).
      split.
      * intros x [->|Hx]; [left; reflexivity|].
        right. apply Hin, in_or_app. left. exact Hx.
      * intros m c [<-|Hm] Hc.
        -- right. apply Hin, in_or_app. right. exact Hc.
        -- right. apply (Hclosed m c Hm Hc).
Qed.

Lemma walk_reaches tree n : descendant n tree -> In n (walk tree).
Proof.
  assert (Hw : (total_size [tree] <= node_size tree)%nat).
  { unfold total_size. simpl. lia. }
  destruct (walk_queue_closed _ _ Hw) as [Hroot Hclosed].
  fold (walk tree) in Hroot, Hclosed.
  assert (Hgen : forall m, descendant n m -> In m (walk tree) -> In n (walk tree)).
  { intros m Hd. induction Hd as [|m c Hc _ IH]; intros Hm; [exact Hm|].
    apply IH. apply (Hclosed m c Hm Hc). }
  intros Hd. apply (Hgen tree Hd). apply Hroot. left. reflexivity.
Qed.

(** ** The calls of a tree and the nodes of its walk *)

(** The calls of a node are its own hit and the calls of its children. *)
Lemma catalog_calls_children n :
  catalog_calls n
  = structural_hit n ++ flat_map catalog_calls (iter_child_nodes n).
Proof.
  destruct n as [ln f a k|ln id|ln v a|ch]; simpl.
  - rewrite flat_map_app.
    destruct f as [ln' f' a' k'|ln' id|ln' v a'|ch]; reflexivity.
  - reflexivity.
  - rewrite !app_nil_r. reflexivity.
  - reflexivity.
Qed.

(** The walk visits every node once: its hits are the calls of the queue,
    in another order (breadth first). *)
Lemma walk_queue_hits fuel : forall todo,
  (total_size todo <= fuel)%nat ->
  flat_map structural_hit (walk_queue fuel todo)
  ≡ₚ flat_map catalog_calls todo.
Proof.
  induction fuel as [|fuel IH]; intros todo Hf.
  - destruct todo as [|n rest]; [reflexivity|].
    unfold total_size in Hf. simpl in Hf.
    rewrite node_size_children in Hf. lia.
  - destruct todo as [|n rest]; [reflexivity|].
    assert (Hsize : (total_size (rest ++ iter_child_nodes n) <= fuel)%nat).
    { rewrite total_size_app. unfold total_size in Hf. simpl in Hf.
      fold (total_size rest) in Hf. rewrite node_size_children in Hf. lia. }
    change (walk_queue (S fuel) (n :: rest))
      with (n :: walk_queue fuel (rest ++ iter_child_nodes n)).
    change (flat_map structural_hit
              (n :: walk_queue fuel (rest ++ iter_child_nodes n)))
      with (structural_hit n
            ++ flat_map structural_hit
                 (walk_queue fuel (rest ++ iter_child_nodes n))).
    change (flat_map catalog_calls (n :: rest))
      with (catalog_calls n ++ flat_map catalog_calls rest).
    rewrite (IH _ Hsize), flat_map_app, catalog_calls_children.
    rewrite <- app_assoc. apply Permutation_app_head, Permutation_app_comm.
Qed.

Lemma walk_hits tree :
  flat_map structural_hit (walk tree) ≡ₚ catalog_calls tree.
Proof.
  unfold walk. rewrite walk_queue_hits.
  - simpl. rewrite app_nil_r. reflexivity.
  - unfold total_size. simpl. lia.
Qed.

(** When the tree holds a call of eval on line 3 and no second call of a
    catalog name, the walk has that one hit. *)
Lemma only_call_hit tree name_line args keywords :
  descendant (Call 3 (Name name_line "eval") args keywords) tree ->
  length (catalog_calls tree) = 1%nat ->
  flat_map structural_hit (walk tree) = [("eval", 3)].
Proof.
  intros Hd Hlen.
  assert (Hin : In ("eval", 3) (flat_map structural_hit (walk tree))).
  { apply in_flat_map.
    exists (Call 3 (Name name_line "eval") args keywords).
    split; [apply walk_reaches; exact Hd | left; reflexivity]. }
  rewrite <- (Permutation_length (walk_hits tree)) in Hlen.
  destruct (flat_map structural_hit (walk tree)) as [|hit [|hit' hits]];
    try discriminate Hlen.
  destruct Hin as [->|[]]. reflexivity.
Qed.

(** C3. A Python file that has eval(x) on its line 3 and matches no other
    text signature, and whose syntax tree holds a call of the bare name
    eval on line 3, at any depth, and no second call of a catalog name,
    gets exactly two issues, the substring one and the structural one
    (nothing is deduplicated), hence count 2, score 80 and risk level
    Low. *)
Theorem C3_eval_reported_twice
    (open_read : string -> exn + string) (ast_parse : string -> exn + node)
    (Statement : Type) (sqlparse_parse : string -> exn + list Statement)
    (get_type : Statement -> string)
    (filepath content line : string) (tree : node)
    (name_line : Z) (args keywords : list node) :
  open_read filepath = inr content ->
  lines content !! 2%nat = Some line ->
  str_in "eval(x)" line = true ->
  other_text_signature content = false ->
  ast_parse content = inr tree ->
  descendant (Call 3 (Name name_line "eval") args keywords) tree ->
  length (catalog_calls tree) = 1%nat ->
  generate_security_report open_read ast_parse sqlparse_parse get_type
    filepath "py"
  = mk_report ["Dangerous function used: eval";
               "Dangerous function call: eval at line 3"] 2 "Low" 80.
Proof.
  intros Hread Hline Hcall Hclean Hparse Hdesc Honly.
  pose proof (only_call_hit _ _ _ _ Hdesc Honly) as Hhits.
  assert (Heval : str_in "eval" content = true).
  { apply lines_sub in Hline as (a & b & ->).
    apply str_in_trans with (b := "eval(x)"); [reflexivity|].
    apply str_in_trans with (b := line); [exact Hcall | apply str_in_intro]. }
  unfold other_text_signature in Hclean.
  apply orb_false_iff in Hclean as [Hclean Hcred].
  apply orb_false_iff in Hclean as [Hfuncs Hinj].
  simpl in Hfuncs. rewrite !orb_false_iff in Hfuncs.
  destruct Hfuncs as (Hexec & Hpickle & Hsystem & Hsub & _).
  unfold generate_security_report. simpl.
  rewrite (analyze_python_security_readable _ _ _ _ Hread).
  unfold pattern_scanner_py, dangerous_function_findings,
    command_injection_findings, credential_findings, structural_scanner.
  rewrite Hparse, Hhits, Hinj, Hcred. simpl flat_map.
  rewrite Heval, Hexec, Hpickle, Hsystem, Hsub.
  reflexivity.
Qed.

Lemma C3_eval_reported_twice_witness :
  descendant (Call 3 (Name 3 "eval") [Name 3 "x"] []) nested_eval_tree
  /\ length (catalog_calls nested_eval_tree) = 1%nat
  /\ generate_security_report (one_file "upload.py" nested_eval_source)
       (parse_as nested_eval_source nested_eval_tree) one_select type_of
       "upload.py" "py"
     = mk_report ["Dangerous function used: eval";
                  "Dangerous function call: eval at line 3"] 2 "Low" 80.
Proof.
  assert (Hdesc : descendant (Call 3 (Name 3 "eval") [Name 3 "x"] [])
                    nested_eval_tree).
  { apply (descendant_child _ _
             (Node [Call 3 (Name 3 "print")
                      [Call 3 (Name 3 "eval") [Name 3 "x"] []] []]));
      [simpl; tauto|].
    apply (descendant_child _ _
             (Call 3 (Name 3 "print")
                [Call 3 (Name 3 "eval") [Name 3 "x"] []] []));
      [simpl; tauto|].
    apply (descendant_child _ _ (Call 3 (Name 3 "eval") [Name 3 "x"] []));
      [simpl; tauto|].
    apply descendant_self. }
  split; [exact Hdesc|]. split; [reflexivity|].
  apply (C3_eval_reported_twice (one_file "upload.py" nested_eval_source)
           (parse_as nested_eval_source nested_eval_tree) string one_select
           type_of "upload.py" nested_eval_source "print(eval(x))"
           nested_eval_tree 3 [Name 3 "x"] []);
    [reflexivity | reflexivity | reflexivity | vm_compute; reflexivity
    | reflexivity | exact Hdesc | reflexivity].
Defined.

(** ** The hardcoded-credential heuristic *)

(** The pattern matches every text described by [credential_text]. *)
Lemma credential_text_matches content :
  credential_text content -> re_search false credential_re content = true.
Proof.
  intros (pre & name & ws1 & ws2 & q1 & body & q2 & post
          & -> & Hname & Hws1 & Hws2 & Hq1 & Hq2 & Hne & Hbody).
  apply re_search_spec.
  exists pre,
    (name +:+ ws1 +:+ "=" +:+ ws2 +:+ String q1 "" +:+ body +:+ String q2 ""),
    post.
  split.
  { rewrite !str_app_assoc. reflexivity. }
  unfold credential_re.
  constructor.
  { unfold credential_names in Hname. simpl in Hname.
    destruct Hname as [<-|[<-|[<-|[<-|[]]]]].
    - apply L_AltL, lang_Word.
    - apply L_AltR, L_AltL, lang_Word.
    - apply L_AltR, L_AltR, L_AltL, lang_Word.
    - apply L_AltR, L_AltR, L_AltR, lang_Word. }
  constructor; [apply lang_Star_class; exact Hws1|].
  constructor; [constructor; reflexivity|].
  constructor; [apply lang_Star_class; exact Hws2|].
  constructor; [constructor; exact Hq1|].
  constructor; [|constructor; exact Hq2].
  destruct body as [|c body]; [contradiction|].
  simpl in Hbody. apply andb_true_iff in Hbody as [Hc Hbody].
  change (String c body) with (String c "" +:+ body).
  constructor; [constructor; exact Hc|].
  apply lang_Star_class. exact Hbody.
Qed.

Lemma structural_label_head hit :
  structural_label hit
  = String "D" ("angerous function call: " +:+ fst hit +:+ " at line "
                +:+ pretty (snd hit)).
Proof. reflexivity. Qed.

(** No other signature produces the label of the credential heuristic. *)
Lemma credential_label_not_before content :
  ~ In "Hardcoded credentials detected"
      (map fst (dangerous_function_findings content
                ++ command_injection_findings content)).
Proof.
  unfold dangerous_function_findings, command_injection_findings,
    dangerous_funcs. simpl flat_map.
  by_cases_on_tests; simpl; intros H;
    repeat (destruct H as [H|H]; [discriminate H|]); exact H.
Qed.

Lemma credential_label_not_after parsed :
  ~ In "Hardcoded credentials detected" (map fst (structural_scanner parsed)).
Proof.
  destruct parsed as [e|tree]; simpl; [tauto|].
  rewrite map_map. simpl. intros H. apply in_map_iff in H as (hit & H & _).
  rewrite structural_label_head in H. discriminate H.
Qed.

(** C4 (as the code has it).  The heuristic matches the four names in
    lower case only, and needs a literal of at least one character.  On
    every Python file whose text holds such an assignment it adds the issue
    "Hardcoded credentials detected" exactly once, with penalty 20; for the
    file [password_source], which has no call, the report is that single
    issue with score 80 and risk level Low. *)
Theorem C4_hardcoded_credentials
    (open_read : string -> exn + string) (ast_parse : string -> exn + node)
    (Statement : Type) (sqlparse_parse : string -> exn + list Statement)
    (get_type : Statement -> string) (filepath content : string) :
  open_read filepath = inr content ->
  credential_text content ->
  let report := generate_security_report open_read ast_parse sqlparse_parse
                  get_type filepath "py" in
  (exists before after : list string,
      report !! "security_issues"
      = Some (VList (before ++ "Hardcoded credentials detected" :: after))
      /\ ~ In "Hardcoded credentials detected" before
      /\ ~ In "Hardcoded credentials detected" after
      /\ report !! "security_score"
         = Some (VInt (100 - sumZ (map catalog_penalty before) - 20
                       - sumZ (map catalog_penalty after))))
  /\ (content = password_source ->
      structural_scanner (ast_parse content) = [] ->
      report = mk_report ["Hardcoded credentials detected"] 1 "Low" 80).
Proof.
  intros Hread Htext report. subst report.
  unfold generate_security_report. simpl.
  rewrite (analyze_python_security_readable _ _ _ _ Hread).
  pose proof (credential_text_matches _ Htext) as Hre.
  split.
  - exists (map fst (dangerous_function_findings content
                     ++ command_injection_findings content)),
           (map fst (structural_scanner (ast_parse content))).
    split; [|split; [|split]].
    + unfold aggregate. rewrite mk_report_issues. do 2 f_equal.
      unfold pattern_scanner_py, credential_findings. rewrite Hre.
      rewrite !map_app, <- !app_assoc. reflexivity.
    + apply credential_label_not_before.
    + apply credential_label_not_after.
    + unfold aggregate. rewrite mk_report_score. do 2 f_equal.
      rewrite !priced_sum.
      * unfold pattern_scanner_py, credential_findings. rewrite Hre.
        rewrite !penalties_app. unfold penalties at 3. simpl. lia.
      * apply structural_scanner_priced.
      * apply Forall_app. split.
        -- apply dangerous_function_findings_priced.
        -- apply command_injection_findings_priced.
  - intros -> ->. reflexivity.
Qed.

Lemma password_source_credential_text : credential_text password_source.
Proof.
  exists "", "password", " ", " ", dquote, "abc123", dquote, "".
  repeat split; try reflexivity.
  - left. reflexivity.
  - discriminate.
Qed.

Lemma C4_hardcoded_credentials_witness :
  one_file "upload.py" password_source "upload.py" = inr password_source
  /\ credential_text password_source
  /\ generate_security_report (one_file "upload.py" password_source)
       (parse_as password_source (assignment_tree "password"))
       one_select type_of "upload.py" "py"
     = mk_report ["Hardcoded credentials detected"] 1 "Low" 80.
Proof.
  split; [reflexivity|]. split; [exact password_source_credential_text|].
  destruct (C4_hardcoded_credentials (one_file "upload.py" password_source)
              (parse_as password_source (assignment_tree "password"))
              string one_select type_of "upload.py" password_source
              eq_refl password_source_credential_text) as [_ H].
  apply H; reflexivity.
Defined.

(** C4 as stated fails: an assignment to PASSWORD (which is password up to
    case) of a quoted literal, and an assignment of the empty literal to
    password, are not reported; the report stays at no issue and score
    100. *)
Lemma C4_counterexample :
  lower "PASSWORD" = "password"
  /\ generate_security_report (one_file "upload.py" upper_password_source)
       (parse_as upper_password_source (assignment_tree "PASSWORD"))
       one_select type_of "upload.py" "py"
     = mk_report [] 0 "Low" 100
  /\ generate_security_report (one_file "upload.py" empty_password_source)
       (parse_as empty_password_source (assignment_tree "password"))
       one_select type_of "upload.py" "py"
     = mk_report [] 0 "Low" 100.
Proof. repeat split; vm_compute; reflexivity. Qed.

(** C5. A fault is caught at the boundary of the analyzer: when the read
    raises, the report is the initial one (no issue, count 0, score 100,
    Low) with the error field "Security analysis failed: <message>"; more
    generally, whatever exception the body raises, the report returned is
    the dictionary as the body left it, with that error field added.  The
    analyzers are total functions into dictionaries: nothing is
    propagated. *)
Theorem C5_faults_become_error_field
    (open_read : string -> exn + string) (ast_parse : string -> exn + node)
    (Statement : Type) (sqlparse_parse : string -> exn + list Statement)
    (get_type : Statement -> string) (filepath : string) :
  (forall e, open_read filepath = inl e ->
     analyze_python_security open_read ast_parse filepath
     = <["error" := VStr ("Security analysis failed: " +:+ e)]>
         (mk_report [] 0 "Low" 100)
     /\ analyze_sql_security open_read sqlparse_parse get_type filepath
        = <["error" := VStr ("Security analysis failed: " +:+ e)]>
            (mk_report [] 0 "Low" 100))
  /\ (forall e d,
        python_body open_read ast_parse filepath initial_report = (inl e, d) ->
        analyze_python_security open_read ast_parse filepath
        = <["error" := VStr ("Security analysis failed: " +:+ e)]> d)
  /\ (forall e d,
        sql_body open_read sqlparse_parse get_type filepath initial_report
        = (inl e, d) ->
        analyze_sql_security open_read sqlparse_parse get_type filepath
        = <["error" := VStr ("Security analysis failed: " +:+ e)]> d).
Proof.
  split; [|split].
  - intros e H. split.
    + apply analyze_python_security_unreadable. exact H.
    + apply analyze_sql_security_unreadable. exact H.
  - intros e d H. unfold analyze_python_security, except_Exception.
    rewrite H. reflexivity.
  - intros e d H. unfold analyze_sql_security, except_Exception.
    rewrite H. reflexivity.
Qed.

(** C6. When [ast.parse] raises, the structural pass adds nothing and the
    exception goes no further: the report has no error field and is the
    aggregate of the Pattern Scanner's findings alone, the same report as
    for a tree without any call. *)
Theorem C6_parse_failure_is_silent
    (open_read : string -> exn + string) (ast_parse : string -> exn + node)
    (filepath content : string) (e : exn) :
  open_read filepath = inr content ->
  ast_parse content = inl e ->
  structural_scanner (ast_parse content) = []
  /\ analyze_python_security open_read ast_parse filepath
     = aggregate (pattern_scanner_py content)
  /\ analyze_python_security open_read ast_parse filepath !! "error" = None
  /\ analyze_python_security open_read ast_parse filepath
     = analyze_python_security open_read (fun _ => inr (Node [])) filepath.
Proof.
  intros Hread Hparse.
  rewrite (analyze_python_security_readable _ (fun _ => inr (Node [])) _ _ Hread).
  rewrite (analyze_python_security_readable _ ast_parse _ _ Hread).
  rewrite Hparse.
  change (structural_scanner (inl e)) with (@nil finding).
  change (structural_scanner (inr (Node []))) with (@nil finding).
  rewrite app_nil_r. repeat split; reflexivity.
Qed.

Lemma C6_parse_failure_is_silent_witness :
  analyze_python_security (one_file "upload.py" "eval(") parse_fails "upload.py"
  = mk_report ["Dangerous function used: eval"] 1 "Low" 90
  /\ analyze_python_security (one_file "upload.py" "eval(") parse_fails
       "upload.py" !! "error" = None.
Proof.
  destruct (C6_parse_failure_is_silent (one_file "upload.py" "eval(")
              parse_fails "upload.py" "eval("
              "invalid syntax (<unknown>, line 1)" eq_refl eq_refl)
    as (_ & H1 & H2 & _).
  split; [rewrite H1; reflexivity | exact H2].
Defined.

(** C7. For a file type other than py and sql the result is the dictionary
    whose only key is error, with the fixed message; the file is not even
    opened. *)
Theorem C7_unsupported_filetype
    (open_read : string -> exn + string) (ast_parse : string -> exn + node)
    (Statement : Type) (sqlparse_parse : string -> exn + list Statement)
    (get_type : Statement -> string) (filepath filetype : string) :
  filetype <> "py" -> filetype <> "sql" ->
  generate_security_report open_read ast_parse sqlparse_parse get_type
    filepath filetype
  = {["error" := VStr "Unsupported file type for security analysis"]}.
Proof.
  intros Hpy Hsql. unfold generate_security_report.
  apply String.eqb_neq in Hpy, Hsql. rewrite Hpy, Hsql. reflexivity.
Qed.

Lemma C7_unsupported_filetype_witness :
  generate_security_report (one_file "notes.txt" "eval(x)") parse_fails
    one_select type_of "notes.txt" "txt"
  = {["error" := VStr "Unsupported file type for security analysis"]}.
Proof.
  apply (C7_unsupported_filetype (one_file "notes.txt" "eval(x)") parse_fails
           string one_select type_of "notes.txt" "txt"); discriminate.
Defined.

Lemma C5_faults_become_error_field_witness :
  analyze_python_security no_file parse_fails "gone.py"
  = <["error" := VStr "Security analysis failed: [Errno 2] No such file or directory: 'gone.py'"]>
      (mk_report [] 0 "Low" 100)
  /\ analyze_sql_security no_file one_select type_of "gone.py"
     = <["error" := VStr "Security analysis failed: [Errno 2] No such file or directory: 'gone.py'"]>
         (mk_report [] 0 "Low" 100).
Proof.
  destruct (C5_faults_become_error_field no_file parse_fails string one_select
              type_of "gone.py") as [H _].
  apply (H "[Errno 2] No such file or directory: 'gone.py'"). reflexivity.
Defined.

Lemma statement_classifier_known types :
  Forall (fun t => t <> "UNKNOWN") types -> statement_classifier types = [].
Proof.
  induction 1 as [|t types Ht _ IH]; [reflexivity|].
  unfold statement_classifier in *. simpl.
  apply String.eqb_neq in Ht. rewrite Ht, IH. reflexivity.
Qed.

(** C8. For the example SQL text the report holds the issue "Potential
    SQL injection vulnerability" (catalog penalty 30) whatever sqlparse
    does; when sqlparse gives no statement of type UNKNOWN for it (the
    text is one SELECT statement), the report is that single issue with
    score 70 and risk level Medium. *)
Theorem C8_sql_injection_example
    (open_read : string -> exn + string) (ast_parse : string -> exn + node)
    (Statement : Type) (sqlparse_parse : string -> exn + list Statement)
    (get_type : Statement -> string) (filepath : string) :
  open_read filepath = inr sql_injection_source ->
  let report := generate_security_report open_read ast_parse sqlparse_parse
                  get_type filepath "sql" in
  (exists issues : list string,
      report !! "security_issues" = Some (VList issues)
      /\ In "Potential SQL injection vulnerability" issues
      /\ catalog_penalty "Potential SQL injection vulnerability" = 30)
  /\ (Forall (fun t => t <> "UNKNOWN")
        (statement_types get_type (sqlparse_parse sql_injection_source)) ->
      report = mk_report ["Potential SQL injection vulnerability"] 1 "Medium" 70).
Proof.
  intros Hread report. subst report.
  unfold generate_security_report. simpl.
  rewrite (analyze_sql_security_readable _ _ _ _ _ _ Hread).
  change (pattern_scanner_sql sql_injection_source)
    with [("Potential SQL injection vulnerability", 30)].
  split.
  - eexists. split; [apply mk_report_issues|]. split; [|reflexivity].
    left. reflexivity.
  - intros Hknown. rewrite (statement_classifier_known _ Hknown). reflexivity.
Qed.

Lemma C8_sql_injection_example_witness :
  every_file sql_injection_source "query.sql" = inr sql_injection_source
  /\ Forall (fun t => t <> "UNKNOWN")
       (statement_types type_of (one_select sql_injection_source))
  /\ generate_security_report (every_file sql_injection_source) parse_fails
       one_select type_of "query.sql" "sql"
     = mk_report ["Potential SQL injection vulnerability"] 1 "Medium" 70.
Proof.
  assert (Hknown : Forall (fun t => t <> "UNKNOWN")
                     (statement_types type_of (one_select sql_injection_source))).
  { repeat constructor. discriminate. }
  split; [reflexivity|]. split; [exact Hknown|].
  destruct (C8_sql_injection_example (every_file sql_injection_source)
              parse_fails string one_select type_of "query.sql" eq_refl)
    as [_ H].
  apply H. exact Hknown.
Defined.

(** ** Which labels the two scanners can produce *)

Lemma pattern_scanner_py_not_call content :
  Forall (fun f : finding => startswith call_prefix (fst f) = false)
    (pattern_scanner_py content).
Proof.
  unfold pattern_scanner_py, dangerous_function_findings,
    command_injection_findings, credential_findings, dangerous_funcs.
  simpl flat_map.
  apply Forall_app; split; [|apply Forall_app; split];
    by_cases_on_tests; repeat constructor.
Qed.

Lemma structural_label_call hit :
  startswith call_prefix (structural_label hit) = true.
Proof. reflexivity. Qed.

Lemma structural_label_eval_exec name lineno :
  name = "eval" \/ name = "exec" ->
  startswith "Dangerous function call: e" (structural_label (name, lineno))
  = true.
Proof. intros [-> | ->]; reflexivity. Qed.

Lemma structural_label_dotted name lineno :
  name = "pickle.loads" \/ name = "os.system" \/ name = "subprocess.call" ->
  startswith "Dangerous function call: e" (structural_label (name, lineno))
  = false.
Proof. intros [-> | [-> | ->]]; reflexivity. Qed.

(** C10. When the trees of [ast.parse] carry identifiers in their [Name]
    nodes, every issue of a Python report that starts with "Dangerous
    function call: " is about eval or exec, and no issue is the structural
    label of pickle.loads, os.system or subprocess.call at any line. *)
Theorem C10_structural_only_eval_exec
    (open_read : string -> exn + string) (ast_parse : string -> exn + node)
    (Statement : Type) (sqlparse_parse : string -> exn + list Statement)
    (get_type : Statement -> string) (filepath : string)
    (issues : list string) (issue : string) :
  (forall content tree,
      ast_parse content = inr tree -> identifiers_ok tree = true) ->
  generate_security_report open_read ast_parse sqlparse_parse get_type
    filepath "py" !! "security_issues" = Some (VList issues) ->
  In issue issues ->
  (startswith "Dangerous function call: " issue = true ->
   exists lineno : Z,
     issue = structural_label ("eval", lineno)
     \/ issue = structural_label ("exec", lineno))
  /\ (forall (name : string) (lineno : Z),
        name = "pickle.loads" \/ name = "os.system"
        \/ name = "subprocess.call" ->
        issue <> structural_label (name, lineno)).
Proof.
  intros Hids Hissues Hin.
  unfold generate_security_report in Hissues. simpl in Hissues.
  destruct (open_read filepath) as [e|content] eqn:Hread.
  - rewrite (analyze_python_security_unreadable _ _ _ _ Hread) in Hissues.
    change (Some (VList []) = Some (VList issues)) in Hissues.
    injection Hissues as <-. destruct Hin.
  - rewrite (analyze_python_security_readable _ _ _ _ Hread) in Hissues.
    unfold aggregate in Hissues. rewrite mk_report_issues in Hissues.
    injection Hissues as <-.
    rewrite map_app in Hin. apply in_app_or in Hin as [Hin|Hin].
    + apply in_map_iff in Hin as (f & <- & Hf).
      pose proof (pattern_scanner_py_not_call content) as Hall.
      rewrite Forall_forall in Hall. specialize (Hall f).
      assert (Hno : startswith call_prefix (fst f) = false).
      { apply Hall. apply list_elem_of_In. exact Hf. }
      split.
      * intros Hyes. unfold call_prefix in Hno. congruence.
      * intros name lineno _ Heq. rewrite Heq, structural_label_call in Hno.
        discriminate.
    + unfold structural_scanner in Hin.
      destruct (ast_parse content) as [e|tree] eqn:Hparse; [destruct Hin|].
      rewrite map_map in Hin. simpl in Hin.
      apply in_map_iff in Hin as ([name lineno] & <- & Hhit).
      pose proof (structural_hit_names tree _ (Hids _ _ Hparse) Hhit) as Hname.
      simpl in Hname. split.
      * intros _. exists lineno. destruct Hname as [-> | ->]; auto.
      * intros name' lineno' Hdotted Heq.
        pose proof (structural_label_eval_exec _ lineno Hname) as Hyes.
        rewrite Heq, (structural_label_dotted _ _ Hdotted) in Hyes.
        discriminate.
Qed.

Lemma C10_structural_only_eval_exec_witness :
  (forall content tree,
      parse_as eval_source eval_tree content = inr tree ->
      identifiers_ok tree = true)
  /\ (forall (name : string) (lineno : Z),
        name = "pickle.loads" \/ name = "os.system"
        \/ name = "subprocess.call" ->
        "Dangerous function call: eval at line 3"
        <> structural_label (name, lineno)).
Proof.
  assert (Hids : forall content tree,
             parse_as eval_source eval_tree content = inr tree ->
             identifiers_ok tree = true).
  { intros content tree. unfold parse_as.
    destruct (String.eqb content eval_source); [|discriminate].
    intros [= <-]. reflexivity. }
  split; [exact Hids|].
  apply (C10_structural_only_eval_exec (one_file "upload.py" eval_source)
           (parse_as eval_source eval_tree) string one_select type_of
           "upload.py"
           ["Dangerous function used: eval";
            "Dangerous function call: eval at line 3"]
           "Dangerous function call: eval at line 3" Hids).
  - vm_compute. reflexivity.
  - right. left. reflexivity.
Defined.

(** ** Remarks *)

(** A qualified call such as os.system(cmd) has an [Attribute] callee and
    is not a structural hit, identifier or not. *)
Lemma qualified_call_no_hit lineno value attr args keywords :
  structural_hit (Call lineno (Attribute lineno value attr) args keywords) = [].
Proof. reflexivity. Qed.

(** In this model the bodies raise only when the read does: no scanner
    lets an exception out. *)
Lemma python_body_raises_only_on_read open_read ast_parse filepath e d :
  python_body open_read ast_parse filepath initial_report = (inl e, d) ->
  open_read filepath = inl e /\ d = initial_report.
Proof.
  destruct (open_read filepath) as [e'|content] eqn:Hread.
  - rewrite (python_body_unreadable _ _ _ _ Hread). intros [= -> ->]. auto.
  - rewrite (python_body_run _ _ _ _ Hread). discriminate.
Qed.

Lemma sql_body_raises_only_on_read open_read (Statement : Type)
    (sqlparse_parse : string -> exn + list Statement) get_type filepath e d :
  sql_body open_read sqlparse_parse get_type filepath initial_report
  = (inl e, d) ->
  open_read filepath = inl e /\ d = initial_report.
Proof.
  destruct (open_read filepath) as [e'|content] eqn:Hread.
  - rewrite (sql_body_unreadable _ _ _ _ _ _ Hread). intros [= -> ->]. auto.
  - rewrite (sql_body_run _ _ _ _ _ _ Hread). discriminate.
Qed.

(** The SQL checks see the text in upper case: the example of the
    specification's section 8, in either case. *)
Example drop_table_reported :
  analyze_sql_security (every_file "DROP TABLE users;")
    (fun _ => inr ["DROP"]) type_of "schema.sql"
  = mk_report ["Sensitive operation: DROP TABLE"] 1 "Low" 85
  /\ analyze_sql_security (every_file "drop table users;")
       (fun _ => inr ["DROP"]) type_of "schema.sql"
     = mk_report ["Sensitive operation: DROP TABLE"] 1 "Low" 85.
Proof. split; vm_compute; reflexivity. Qed.

(** * Further properties of the analyzers *)

Lemma flat_map_if_filter {A B} (c : A -> bool) (g : A -> B) (xs : list A) :
  flat_map (fun x => if c x then [g x] else []) xs = map g (List.filter c xs).
Proof.
  induction xs as [|x xs IH]; simpl; [reflexivity|].
  destruct (c x); simpl; rewrite IH; reflexivity.
Qed.

Lemma pattern_scanner_py_labels content :
  map fst (pattern_scanner_py content) = python_text_issues content.
Proof.
  unfold pattern_scanner_py, python_text_issues, dangerous_function_findings,
    command_injection_findings, credential_findings.
  rewrite !map_app. f_equal; [|f_equal].
  - rewrite (flat_map_if_filter (fun func => str_in func content)
               (fun func => ("Dangerous function used: " +:+ func, 10))).
    rewrite map_map. reflexivity.
  - by_cases_on_tests; reflexivity.
  - by_cases_on_tests; reflexivity.
Qed.

Lemma structural_scanner_labels parsed :
  map fst (structural_scanner parsed) = python_structural_issues parsed.
Proof.
  destruct parsed as [e|tree]; simpl; [reflexivity|].
  rewrite map_map. reflexivity.
Qed.

Lemma pattern_scanner_sql_labels content :
  map fst (pattern_scanner_sql content) = sql_text_issues content.
Proof.
  unfold pattern_scanner_sql, sql_text_issues.
  rewrite !map_app. f_equal; [|f_equal].
  - by_cases_on_tests; reflexivity.
  - by_cases_on_tests; reflexivity.
  - rewrite (flat_map_if_filter (fun op => str_in op (upper content))
               (fun op => ("Sensitive operation: " +:+ op, 15))).
    rewrite map_map. reflexivity.
Qed.

Lemma statement_classifier_labels types :
  map fst (statement_classifier types) = sql_statement_issues types.
Proof.
  unfold statement_classifier, sql_statement_issues.
  rewrite (flat_map_if_filter (fun t => String.eqb t "UNKNOWN")
             (fun _ => ("Potentially malformed SQL statement", 10))).
  rewrite map_map. reflexivity.
Qed.

(** The issues of a readable file, Python and SQL. *)
Lemma python_issues_readable open_read ast_parse filepath content :
  open_read filepath = inr content ->
  analyze_python_security open_read ast_parse filepath !! "security_issues"
  = Some (VList (python_text_issues content
                 ++ python_structural_issues (ast_parse content))).
Proof.
  intros H. rewrite (analyze_python_security_readable _ _ _ _ H).
  unfold aggregate. rewrite mk_report_issues, map_app.
  rewrite pattern_scanner_py_labels, structural_scanner_labels. reflexivity.
Qed.

Lemma sql_issues_readable open_read (Statement : Type)
    (sqlparse_parse : string -> exn + list Statement) get_type filepath content :
  open_read filepath = inr content ->
  analyze_sql_security open_read sqlparse_parse get_type filepath
    !! "security_issues"
  = Some (VList (sql_text_issues content
                 ++ sql_statement_issues
                      (statement_types get_type (sqlparse_parse content)))).
Proof.
  intros H. rewrite (analyze_sql_security_readable _ _ _ _ _ _ H).
  unfold aggregate. rewrite mk_report_issues, map_app.
  rewrite pattern_scanner_sql_labels, statement_classifier_labels. reflexivity.
Qed.

(** X1. The issues of a Python report come in a fixed order: the catalog
    names found in the text, in catalog order; then the command-injection
    issue; then the credential issue; then one issue per reported call, in
    the breadth-first order of [ast.walk]. *)
Theorem X1_python_issue_order
    (open_read : string -> exn + string) (ast_parse : string -> exn + node)
    (Statement : Type) (sqlparse_parse : string -> exn + list Statement)
    (get_type : Statement -> string) (filepath content : string) :
  open_read filepath = inr content ->
  generate_security_report open_read ast_parse sqlparse_parse get_type
    filepath "py" !! "security_issues"
  = Some (VList
      (map (fun func => "Dangerous function used: " +:+ func)
         (List.filter (fun func => str_in func content)
            ["eval"; "exec"; "pickle.loads"; "os.system"; "subprocess.call"])
       ++ (if existsb (fun x => str_in ("system(" +:+ x) content)
                 ["input"; "argv"; "getenv"]
           then ["Potential command injection vulnerability"] else [])
       ++ (if re_search false credential_re content
           then ["Hardcoded credentials detected"] else [])
       ++ match ast_parse content with
          | inl _ => []
          | inr tree =>
              map structural_label (flat_map structural_hit (walk tree))
          end)).
Proof.
  intros H. unfold generate_security_report. simpl String.eqb. cbv iota.
  rewrite (python_issues_readable _ _ _ _ H).
  unfold python_text_issues, python_structural_issues, dangerous_funcs.
  rewrite <- !app_assoc. reflexivity.
Qed.

Lemma X1_python_issue_order_witness :
  generate_security_report
    (every_file ("os.system(input())" +:+ nl +:+ "exec(eval(x))"))
    (fun _ => inr (Node [Node [Call 1 (Attribute 1 (Name 1 "os") "system")
                                 [Call 1 (Name 1 "input") [] []] []];
                         Node [Call 2 (Name 2 "exec")
                                 [Call 2 (Name 2 "eval") [Name 2 "x"] []] []]]))
    one_select type_of "upload.py" "py" !! "security_issues"
  = Some (VList ["Dangerous function used: eval";
                 "Dangerous function used: exec";
                 "Dangerous function used: os.system";
                 "Potential command injection vulnerability";
                 "Dangerous function call: exec at line 2";
                 "Dangerous function call: eval at line 2"]).
Proof.
  rewrite (X1_python_issue_order
             (every_file ("os.system(input())" +:+ nl +:+ "exec(eval(x))"))
             _ string one_select type_of "upload.py"
             ("os.system(input())" +:+ nl +:+ "exec(eval(x))") eq_refl).
  vm_compute. reflexivity.
Defined.

Lemma sql_statement_issues_parsed {Statement : Type}
    (get_type : Statement -> string) (parsed : exn + list Statement) :
  sql_statement_issues (statement_types get_type parsed)
  = match parsed with
    | inl _ => []
    | inr statements =>
        map (fun _ => "Potentially malformed SQL statement")
          (List.filter (fun stmt => String.eqb (get_type stmt) "UNKNOWN")
             statements)
    end.
Proof.
  destruct parsed as [e|statements]; [reflexivity|].
  unfold sql_statement_issues, statement_types.
  induction statements as [|stmt statements IH]; [reflexivity|].
  simpl. destruct (String.eqb (get_type stmt) "UNKNOWN"); simpl; rewrite IH;
    reflexivity.
Qed.

(** X2. The issues of an SQL report come in a fixed order: injection, then
    dynamic SQL, then the sensitive operations found in the upper-cased
    text, in catalog order; then one "malformed" issue per statement whose
    type is UNKNOWN (none when sqlparse raises). *)
Theorem X2_sql_issue_order
    (open_read : string -> exn + string) (ast_parse : string -> exn + node)
    (Statement : Type) (sqlparse_parse : string -> exn + list Statement)
    (get_type : Statement -> string) (filepath content : string) :
  open_read filepath = inr content ->
  generate_security_report open_read ast_parse sqlparse_parse get_type
    filepath "sql" !! "security_issues"
  = Some (VList
      ((if re_search true sql_injection_re content
        then ["Potential SQL injection vulnerability"] else [])
       ++ (if str_in "EXEC(" (upper content)
              || str_in "EXECUTE IMMEDIATE" (upper content)
           then ["Dynamic SQL execution detected"] else [])
       ++ map (fun op => "Sensitive operation: " +:+ op)
            (List.filter (fun op => str_in op (upper content))
               ["DROP TABLE"; "TRUNCATE TABLE"; "GRANT ALL"; "ALTER USER"])
       ++ match sqlparse_parse content with
          | inl _ => []
          | inr statements =>
              map (fun _ => "Potentially malformed SQL statement")
                (List.filter
                   (fun stmt => String.eqb (get_type stmt) "UNKNOWN")
                   statements)
          end)).
Proof.
  intros H. unfold generate_security_report. simpl String.eqb. cbv iota.
  rewrite (sql_issues_readable _ _ _ _ _ _ H).
  rewrite sql_statement_issues_parsed.
  unfold sql_text_issues, sensitive_ops.
  rewrite <- !app_assoc. reflexivity.
Qed.

Lemma X2_sql_issue_order_witness :
  generate_security_report
    (every_file "drop table t; foo; Exec(x); GRANT ALL ON t TO u")
    parse_fails (fun _ => inr ["DROP"; "UNKNOWN"; "UNKNOWN"; "UNKNOWN"])
    type_of "schema.sql" "sql" !! "security_issues"
  = Some (VList ["Dynamic SQL execution detected";
                 "Sensitive operation: DROP TABLE";
                 "Sensitive operation: GRANT ALL";
                 "Potentially malformed SQL statement";
                 "Potentially malformed SQL statement";
                 "Potentially malformed SQL statement"]).
Proof.
  rewrite (X2_sql_issue_order
             (every_file "drop table t; foo; Exec(x); GRANT ALL ON t TO u")
             parse_fails string
             (fun _ => inr ["DROP"; "UNKNOWN"; "UNKNOWN"; "UNKNOWN"])
             type_of "schema.sql"
             "drop table t; foo; Exec(x); GRANT ALL ON t TO u" eq_refl).
  vm_compute. reflexivity.
Defined.

Lemma dom_mk_report l c r s : dom (mk_report l c r s) = report_keys.
Proof.
  unfold mk_report, report_keys.
  rewrite !dom_insert_L, dom_empty_L. set_solver.
Qed.

(** X3. For a supported file type the report always carries the four keys
    security_issues, vulnerability_count, risk_level and security_score,
    so a caller may index them; the key error is there exactly when the
    file could not be read (a failing parser never adds it). *)
Theorem X3_report_keys
    (open_read : string -> exn + string) (ast_parse : string -> exn + node)
    (Statement : Type) (sqlparse_parse : string -> exn + list Statement)
    (get_type : Statement -> string) (filepath filetype : string) :
  filetype = "py" \/ filetype = "sql" ->
  dom (generate_security_report open_read ast_parse sqlparse_parse get_type
         filepath filetype)
  = match open_read filepath with
    | inl _ => report_keys ∪ {["error"]}
    | inr _ => report_keys
    end.
Proof.
  intros Hft. unfold generate_security_report.
  destruct Hft as [-> | ->]; simpl String.eqb; cbv iota;
    destruct (open_read filepath) as [e|content] eqn:E.
  - rewrite (analyze_python_security_unreadable _ _ _ _ E).
    rewrite dom_insert_L. unfold initial_report. rewrite dom_mk_report.
    set_solver.
  - rewrite (analyze_python_security_readable _ _ _ _ E).
    unfold aggregate. apply dom_mk_report.
  - rewrite (analyze_sql_security_unreadable _ _ _ _ _ _ E).
    rewrite dom_insert_L. unfold initial_report. rewrite dom_mk_report.
    set_solver.
  - rewrite (analyze_sql_security_readable _ _ _ _ _ _ E).
    unfold aggregate. apply dom_mk_report.
Qed.

Lemma X3_report_keys_witness :
  dom (generate_security_report no_file parse_fails one_select type_of
         "gone.sql" "sql")
  = report_keys ∪ {["error"]}.
Proof.
  apply (X3_report_keys no_file parse_fails string one_select type_of
           "gone.sql" "sql").
  right. reflexivity.
Defined.

Lemma modest_bounds fs :
  Forall modest fs ->
  10 * Z.of_nat (length fs) <= penalties fs <= 30 * Z.of_nat (length fs).
Proof.
  induction 1 as [|f fs Hf _ IH]; unfold penalties in *; simpl length; simpl map.
  - simpl. lia.
  - unfold modest in Hf. simpl sumZ. lia.
Qed.

Lemma pattern_scanner_py_modest content : Forall modest (pattern_scanner_py content).
Proof.
  unfold pattern_scanner_py, dangerous_function_findings,
    command_injection_findings, credential_findings, dangerous_funcs.
  simpl flat_map.
  apply Forall_app; split; [|apply Forall_app; split];
    by_cases_on_tests; repeat constructor; simpl; lia.
Qed.

Lemma structural_scanner_modest parsed : Forall modest (structural_scanner parsed).
Proof.
  destruct parsed as [e|tree]; simpl; [constructor|].
  apply Forall_map. apply Forall_forall. intros hit _. unfold modest. simpl. lia.
Qed.

Lemma pattern_scanner_sql_modest content : Forall modest (pattern_scanner_sql content).
Proof.
  unfold pattern_scanner_sql, sensitive_ops. simpl flat_map.
  repeat (apply Forall_app; split); by_cases_on_tests; repeat constructor;
    simpl; lia.
Qed.

Lemma statement_classifier_modest types : Forall modest (statement_classifier types).
Proof.
  apply Forall_flat_map. intros t _.
  destruct (String.eqb t "UNKNOWN"); repeat constructor; simpl; lia.
Qed.

Lemma aggregate_bounds fs :
  Forall modest fs ->
  exists count score risk,
    aggregate fs !! "vulnerability_count" = Some (VInt count)
    /\ aggregate fs !! "security_score" = Some (VInt score)
    /\ aggregate fs !! "risk_level" = Some (VStr risk)
    /\ 0 <= count
    /\ 100 - 30 * count <= score <= 100 - 10 * count
    /\ (count = 0 -> risk = "Low")
    /\ (3 <= count -> risk <> "Low")
    /\ (6 <= count -> risk = "High")
    /\ (risk = "High" -> 2 <= count).
Proof.
  intros H. pose proof (modest_bounds fs H) as Hb.
  exists (Z.of_nat (length fs)), (100 - penalties fs),
         (risk_level_of (100 - penalties fs)).
  split; [reflexivity|]. split; [reflexivity|]. split; [reflexivity|].
  destruct (risk_level_of_tiers (100 - penalties fs)) as (HL & HM & HH).
  split; [lia|]. split; [lia|].
  split; [intros E; apply HL; lia|].
  split; [intros E Hlow; apply HL in Hlow; lia|].
  split; [intros E; apply HH; lia|].
  intros Hhigh. apply HH in Hhigh. lia.
Qed.

(** X4. Count and score bound each other: with n issues the score lies
    between 100 - 30 n and 100 - 10 n.  So a report without issues is Low,
    a report with three or more issues is never Low, one with six or more
    is High, and High needs at least two issues. *)
Theorem X4_score_bounded_by_count
    (open_read : string -> exn + string) (ast_parse : string -> exn + node)
    (Statement : Type) (sqlparse_parse : string -> exn + list Statement)
    (get_type : Statement -> string) (filepath filetype : string) :
  filetype = "py" \/ filetype = "sql" ->
  exists (count score : Z) (risk : string),
    let report := generate_security_report open_read ast_parse sqlparse_parse
                    get_type filepath filetype in
    report !! "vulnerability_count" = Some (VInt count)
    /\ report !! "security_score" = Some (VInt score)
    /\ report !! "risk_level" = Some (VStr risk)
    /\ 0 <= count
    /\ 100 - 30 * count <= score <= 100 - 10 * count
    /\ (count = 0 -> risk = "Low")
    /\ (3 <= count -> risk <> "Low")
    /\ (6 <= count -> risk = "High")
    /\ (risk = "High" -> 2 <= count).
Proof.
  intros Hft.
  assert (Herr : forall v, exists count score risk,
             (<["error" := v]> initial_report : dict) !! "vulnerability_count"
             = Some (VInt count)
             /\ (<["error" := v]> initial_report : dict) !! "security_score"
                = Some (VInt score)
             /\ (<["error" := v]> initial_report : dict) !! "risk_level"
                = Some (VStr risk)
             /\ 0 <= count
             /\ 100 - 30 * count <= score <= 100 - 10 * count
             /\ (count = 0 -> risk = "Low")
             /\ (3 <= count -> risk <> "Low")
             /\ (6 <= count -> risk = "High")
             /\ (risk = "High" -> 2 <= count)).
  { intros v. exists 0, 100, "Low".
    repeat split; try reflexivity; try lia; discriminate. }
  unfold generate_security_report.
  destruct Hft as [-> | ->]; simpl String.eqb; cbv iota;
    destruct (open_read filepath) as [e|content] eqn:E.
  - rewrite (analyze_python_security_unreadable _ _ _ _ E). apply Herr.
  - rewrite (analyze_python_security_readable _ _ _ _ E).
    apply aggregate_bounds, Forall_app. split.
    + apply pattern_scanner_py_modest.
    + apply structural_scanner_modest.
  - rewrite (analyze_sql_security_unreadable _ _ _ _ _ _ E). apply Herr.
  - rewrite (analyze_sql_security_readable _ _ _ _ _ _ E).
    apply aggregate_bounds, Forall_app. split.
    + apply pattern_scanner_sql_modest.
    + apply statement_classifier_modest.
Qed.

Lemma X4_score_bounded_by_count_witness :
  exists (count score : Z) (risk : string),
    let report := generate_security_report
                    (one_file "upload.sql" overloaded_sql) parse_fails
                    one_select type_of "upload.sql" "sql" in
    report !! "vulnerability_count" = Some (VInt count)
    /\ report !! "security_score" = Some (VInt score)
    /\ report !! "risk_level" = Some (VStr risk)
    /\ 0 <= count
    /\ 100 - 30 * count <= score <= 100 - 10 * count
    /\ (count = 0 -> risk = "Low")
    /\ (3 <= count -> risk <> "Low")
    /\ (6 <= count -> risk = "High")
    /\ (risk = "High" -> 2 <= count).
Proof.
  apply (X4_score_bounded_by_count (one_file "upload.sql" overloaded_sql)
           parse_fails string one_select type_of "upload.sql" "sql").
  right. reflexivity.
Defined.

(** ** The vocabulary of the labels *)

Lemma list_in_In x xs : list_in x xs = true -> In x xs.
Proof.
  unfold list_in. intros (y & Hy & Heq)%existsb_exists.
  apply String.eqb_eq in Heq. subst y. exact Hy.
Qed.

Ltac in_fixed_labels := apply list_in_In; vm_compute; reflexivity.

Lemma python_text_issues_fixed content :
  Forall (fun l => In l fixed_labels) (python_text_issues content).
Proof.
  unfold python_text_issues.
  apply Forall_app; split; [|apply Forall_app; split].
  - apply Forall_map, Forall_forall. intros func Hf.
    apply list_elem_of_In, filter_In in Hf as [Hf _].
    unfold dangerous_funcs in Hf. simpl in Hf.
    destruct Hf as [<-|[<-|[<-|[<-|[<-|[]]]]]]; in_fixed_labels.
  - by_cases_on_tests;
      [constructor; [in_fixed_labels | constructor] | constructor].
  - by_cases_on_tests;
      [constructor; [in_fixed_labels | constructor] | constructor].
Qed.

Lemma sql_text_issues_fixed content :
  Forall (fun l => In l fixed_labels) (sql_text_issues content).
Proof.
  unfold sql_text_issues.
  apply Forall_app; split; [|apply Forall_app; split].
  - by_cases_on_tests;
      [constructor; [in_fixed_labels | constructor] | constructor].
  - by_cases_on_tests;
      [constructor; [in_fixed_labels | constructor] | constructor].
  - apply Forall_map, Forall_forall. intros op Hop.
    apply list_elem_of_In, filter_In in Hop as [Hop _].
    unfold sensitive_ops in Hop. simpl in Hop.
    destruct Hop as [<-|[<-|[<-|[<-|[]]]]]; in_fixed_labels.
Qed.

Lemma sql_statement_issues_fixed types :
  Forall (fun l => In l fixed_labels) (sql_statement_issues types).
Proof.
  unfold sql_statement_issues. apply Forall_map, Forall_forall.
  intros t _. in_fixed_labels.
Qed.

Lemma structural_hit_in_catalog nodes hit :
  In hit (flat_map structural_hit nodes) -> In (fst hit) dangerous_funcs.
Proof.
  intros Hin. apply in_flat_map in Hin as (n & _ & Hhit).
  destruct n as [ln f a k|ln id|ln v a|ch]; try (simpl in Hhit; contradiction).
  destruct f as [ln1 f1 a1 k1|ln1 id|ln1 v a1|ch];
    try (simpl in Hhit; contradiction).
  unfold structural_hit in Hhit.
  destruct (list_in id dangerous_funcs) eqn:E; [|contradiction].
  destruct Hhit as [<-|[]]. simpl.
  unfold list_in in E. apply existsb_exists in E as (x & Hx & Heq).
  apply String.eqb_eq in Heq. subst x. exact Hx.
Qed.

Lemma python_structural_issues_vocabulary parsed :
  Forall in_vocabulary (python_structural_issues parsed).
Proof.
  destruct parsed as [e|tree]; simpl; [constructor|].
  apply Forall_forall. intros l Hl. apply list_elem_of_In in Hl.
  apply in_map_iff in Hl as ([func lineno] & <- & Hhit).
  right. exists func, lineno. split; [|reflexivity].
  apply (structural_hit_in_catalog _ _ Hhit).
Qed.

(** X5. Every issue of a report is taken from a fixed vocabulary: one of
    fourteen constant labels, or "Dangerous function call: F at line N" for
    a catalog name F and an integer N.  No other text of the analyzed file
    reaches a label, whatever the parsers return. *)
Theorem X5_labels_from_vocabulary
    (open_read : string -> exn + string) (ast_parse : string -> exn + node)
    (Statement : Type) (sqlparse_parse : string -> exn + list Statement)
    (get_type : Statement -> string) (filepath filetype : string)
    (issues : list string) (issue : string) :
  generate_security_report open_read ast_parse sqlparse_parse get_type
    filepath filetype !! "security_issues" = Some (VList issues) ->
  In issue issues ->
  in_vocabulary issue.
Proof.
  unfold generate_security_report.
  destruct (String.eqb filetype "py");
    [|destruct (String.eqb filetype "sql"); [|discriminate]];
    destruct (open_read filepath) as [e|content] eqn:E.
  - rewrite (analyze_python_security_unreadable _ _ _ _ E).
    intros [= <-] [].
  - rewrite (python_issues_readable _ _ _ _ E). intros [= <-] Hin.
    apply in_app_or in Hin as [Hin|Hin].
    + left. pose proof (python_text_issues_fixed content) as H.
      rewrite Forall_forall in H. apply H, list_elem_of_In, Hin.
    + pose proof (python_structural_issues_vocabulary (ast_parse content)) as H.
      rewrite Forall_forall in H. apply H, list_elem_of_In, Hin.
  - rewrite (analyze_sql_security_unreadable _ _ _ _ _ _ E).
    intros [= <-] [].
  - rewrite (sql_issues_readable _ _ _ _ _ _ E). intros [= <-] Hin.
    left. apply in_app_or in Hin as [Hin|Hin].
    + pose proof (sql_text_issues_fixed content) as H.
      rewrite Forall_forall in H. apply H, list_elem_of_In, Hin.
    + pose proof (sql_statement_issues_fixed
                    (statement_types get_type (sqlparse_parse content))) as H.
      rewrite Forall_forall in H. apply H, list_elem_of_In, Hin.
Qed.

Lemma X5_labels_from_vocabulary_witness :
  in_vocabulary "Dangerous function call: eval at line 3".
Proof.
  apply (X5_labels_from_vocabulary (one_file "upload.py" eval_source)
           (parse_as eval_source eval_tree) string one_select type_of
           "upload.py" "py"
           ["Dangerous function used: eval";
            "Dangerous function call: eval at line 3"]).
  - vm_compute. reflexivity.
  - right. left. reflexivity.
Defined.

(** ** Substring semantics of the dangerous-function check *)

Lemma used_label_not_call func :
  startswith call_prefix ("Dangerous function used: " +:+ func) = false.
Proof. reflexivity. Qed.

Lemma used_label_in_text_issues content func :
  In func dangerous_funcs ->
  In ("Dangerous function used: " +:+ func) (python_text_issues content)
  <-> str_in func content = true.
Proof.
  intros Hcat. unfold python_text_issues. rewrite !in_app_iff. split.
  - intros [H|[H|H]].
    + apply in_map_iff in H as (x & Heq & Hx).
      apply String.app_inj in Heq. subst x.
      apply filter_In in Hx as [_ Hx]. exact Hx.
    + exfalso. revert H. by_cases_on_tests; simpl; intros H; [|exact H].
      destruct H as [H|[]]. rewrite app_String in H. discriminate H.
    + exfalso. revert H. by_cases_on_tests; simpl; intros H; [|exact H].
      destruct H as [H|[]]. rewrite app_String in H. discriminate H.
  - intros H. left. apply in_map_iff. exists func. split; [reflexivity|].
    apply filter_In. split; assumption.
Qed.

Lemma used_label_not_structural parsed func :
  ~ In ("Dangerous function used: " +:+ func) (python_structural_issues parsed).
Proof.
  destruct parsed as [e|tree]; simpl; [tauto|].
  intros H. apply in_map_iff in H as (hit & Heq & _).
  pose proof (structural_label_call hit) as Hc.
  rewrite Heq, used_label_not_call in Hc. discriminate.
Qed.

(** X6. The dangerous-function check is a substring test on the raw text:
    the issue "Dangerous function used: F" is reported exactly when the
    catalog name F occurs somewhere in the file, so any word that contains
    F (execute for exec, evaluate for eval), in code, comment or string,
    triggers it, whatever the parser makes of the file. *)
Theorem X6_dangerous_function_is_substring_test
    (open_read : string -> exn + string) (ast_parse : string -> exn + node)
    (Statement : Type) (sqlparse_parse : string -> exn + list Statement)
    (get_type : Statement -> string) (filepath content func : string) :
  open_read filepath = inr content ->
  In func dangerous_funcs ->
  exists issues : list string,
    generate_security_report open_read ast_parse sqlparse_parse get_type
      filepath "py" !! "security_issues" = Some (VList issues)
    /\ (In ("Dangerous function used: " +:+ func) issues
        <-> str_in func content = true)
    /\ (forall word : string,
          str_in func word = true -> str_in word content = true ->
          In ("Dangerous function used: " +:+ func) issues).
Proof.
  intros Hread Hcat. eexists. split.
  { unfold generate_security_report. simpl String.eqb. cbv iota.
    apply (python_issues_readable _ _ _ _ Hread). }
  assert (Hiff : In ("Dangerous function used: " +:+ func)
                   (python_text_issues content
                    ++ python_structural_issues (ast_parse content))
                 <-> str_in func content = true).
  { rewrite in_app_iff, (used_label_in_text_issues _ _ Hcat).
    pose proof (used_label_not_structural (ast_parse content) func). tauto. }
  split; [exact Hiff|].
  intros word Hw Hc. apply Hiff. apply (str_in_trans _ _ _ Hw Hc).
Qed.

Lemma X6_dangerous_function_is_substring_test_witness :
  exists issues : list string,
    generate_security_report (every_file "cursor.execute(query)") parse_fails
      one_select type_of "db.py" "py" !! "security_issues"
    = Some (VList issues)
    /\ In "Dangerous function used: exec" issues.
Proof.
  destruct (X6_dangerous_function_is_substring_test
              (every_file "cursor.execute(query)") parse_fails string
              one_select type_of "db.py" "cursor.execute(query)" "exec"
              eq_refl) as (issues & Hissues & _ & Hword).
  { right. left. reflexivity. }
  exists issues. split; [exact Hissues|].
  apply (Hword "execute"); reflexivity.
Defined.

(** ** The SQL text heuristics ignore letter case *)

Lemma lower_upper_char c : lower_char (upper_char c) = lower_char c.
Proof. destruct c as [[] [] [] [] [] [] [] []]; reflexivity. Qed.

Lemma upper_char_newline c :
  Ascii.eqb (upper_char c) "010" = Ascii.eqb c "010".
Proof. destruct c as [[] [] [] [] [] [] [] []]; reflexivity. Qed.

Lemma upper_char_space c : is_space (upper_char c) = is_space c.
Proof. destruct c as [[] [] [] [] [] [] [] []]; reflexivity. Qed.

Lemma cset_match_upper cs c :
  cset_match true cs (upper_char c) = cset_match true cs c.
Proof.
  destruct cs as [a| | |l|l]; simpl.
  - rewrite lower_upper_char. reflexivity.
  - rewrite upper_char_newline. reflexivity.
  - apply upper_char_space.
  - rewrite lower_upper_char. reflexivity.
  - rewrite lower_upper_char. reflexivity.
Qed.

Lemma deriv_upper c r : deriv true (upper_char c) r = deriv true c r.
Proof.
  induction r as [| |cs|r1 IH1 r2 IH2|r1 IH1 r2 IH2|r IH]; simpl;
    rewrite ?cset_match_upper, ?IH1, ?IH2, ?IH; reflexivity.
Qed.

Lemma re_match_upper s : forall r,
  re_match true r (upper s) = re_match true r s.
Proof.
  induction s as [|c s IH]; intros r; simpl; [reflexivity|].
  rewrite deriv_upper, IH. reflexivity.
Qed.

Lemma re_search_upper r s : re_search true r (upper s) = re_search true r s.
Proof.
  induction s as [|c s IH]; cbn [upper re_search].
  - reflexivity.
  - rewrite (re_match_upper (String c s)), IH. reflexivity.
Qed.

Lemma pattern_scanner_sql_case c1 c2 :
  upper c1 = upper c2 -> pattern_scanner_sql c1 = pattern_scanner_sql c2.
Proof.
  intros H. unfold pattern_scanner_sql.
  rewrite <- (re_search_upper _ c1), <- (re_search_upper _ c2), H.
  reflexivity.
Qed.

Lemma upper_lower_char c : upper_char (lower_char c) = upper_char c.
Proof. destruct c as [[] [] [] [] [] [] [] []]; reflexivity. Qed.

(** Texts that differ only in the case of their letters have the same
    upper case. *)
Lemma same_letters_upper a : forall b,
  same_letters a b = true -> upper a = upper b.
Proof.
  induction a as [|c a IH]; intros [|d b] H; try discriminate H.
  - reflexivity.
  - simpl in H. apply andb_true_iff in H as [Hc Hrest].
    apply Ascii.eqb_eq in Hc. simpl.
    rewrite <- (upper_lower_char c), Hc, upper_lower_char, (IH b Hrest).
    reflexivity.
Qed.

(** X7. The SQL text heuristics ignore the case of the letters a-z of
    ASCII: two files of the same length whose texts differ, character by
    character, at most in the case of such a letter get the same report,
    provided sqlparse types their statements alike. *)
Theorem X7_sql_report_ignores_case
    (open_read : string -> exn + string) (ast_parse : string -> exn + node)
    (Statement : Type) (sqlparse_parse : string -> exn + list Statement)
    (get_type : Statement -> string) (path1 path2 content1 content2 : string) :
  open_read path1 = inr content1 ->
  open_read path2 = inr content2 ->
  same_letters content1 content2 = true ->
  statement_types get_type (sqlparse_parse content1)
  = statement_types get_type (sqlparse_parse content2) ->
  generate_security_report open_read ast_parse sqlparse_parse get_type
    path1 "sql"
  = generate_security_report open_read ast_parse sqlparse_parse get_type
      path2 "sql".
Proof.
  intros H1 H2 Hsame Hty. unfold generate_security_report.
  simpl String.eqb. cbv iota.
  rewrite (analyze_sql_security_readable _ _ _ _ _ _ H1).
  rewrite (analyze_sql_security_readable _ _ _ _ _ _ H2).
  rewrite (pattern_scanner_sql_case _ _ (same_letters_upper _ _ Hsame)), Hty.
  reflexivity.
Qed.

Lemma X7_sql_report_ignores_case_witness :
  same_letters "drop table t; -- Select + Input" "DROP Table t; -- sELECT + inPUT"
  = true
  /\ generate_security_report
       (two_files "a.sql" "drop table t; -- Select + Input"
          "b.sql" "DROP Table t; -- sELECT + inPUT")
       parse_fails one_select type_of "a.sql" "sql"
     = generate_security_report
         (two_files "a.sql" "drop table t; -- Select + Input"
            "b.sql" "DROP Table t; -- sELECT + inPUT")
         parse_fails one_select type_of "b.sql" "sql".
Proof.
  split; [reflexivity|].
  apply (X7_sql_report_ignores_case
           (two_files "a.sql" "drop table t; -- Select + Input"
              "b.sql" "DROP Table t; -- sELECT + inPUT")
           parse_fails string one_select type_of "a.sql" "b.sql"
           "drop table t; -- Select + Input"
           "DROP Table t; -- sELECT + inPUT"); reflexivity.
Defined.

(** ** The SQL-injection pattern works line by line *)

Lemma all_chars_app p s t :
  all_chars p (s +:+ t) = all_chars p s && all_chars p t.
Proof.
  induction s as [|c s IH]; [reflexivity|].
  rewrite app_String. simpl. rewrite IH, andb_assoc. reflexivity.
Qed.

Lemma lang_rejects_newline ic r s :
  re_lang ic r s -> rejects_newline ic r = true ->
  all_chars not_newline s = true.
Proof.
  induction 1 as [|cs c Hc|r1 r2 s1 s2 H1 IH1 H2 IH2|r1 r2 s H IH|r1 r2 s H IH
                  |r|r s1 s2 H1 IH1 H2 IH2]; simpl; intros Hr;
    try reflexivity.
  - unfold not_newline. destruct (Ascii.eqb_spec c newline) as [->|]; [|reflexivity].
    rewrite Hc in Hr. discriminate.
  - apply andb_true_iff in Hr as [Hr1 Hr2].
    rewrite all_chars_app, IH1, IH2; auto.
  - apply andb_true_iff in Hr as [Hr1 Hr2]. auto.
  - apply andb_true_iff in Hr as [Hr1 Hr2]. auto.
  - rewrite all_chars_app, IH1, IH2; auto.
Qed.

Lemma lines_nonempty s : lines s <> [].
Proof.
  destruct s as [|c s]; simpl; [discriminate|].
  destruct (Ascii.eqb c "010"); [discriminate|].
  destruct (lines s); discriminate.
Qed.

(** A run without newline at the start of a text stays in its first
    line. *)
Lemma lines_prefix p t l ls :
  all_chars not_newline p = true -> lines t = l :: ls ->
  lines (p +:+ t) = (p +:+ l) :: ls.
Proof.
  intros Hp Ht. induction p as [|c p IH]; [exact Ht|].
  simpl in Hp. apply andb_true_iff in Hp as [Hc Hp].
  rewrite app_String. simpl. unfold not_newline, newline in Hc.
  destruct (Ascii.eqb c "010"); [discriminate|].
  rewrite (IH Hp). reflexivity.
Qed.

(** A substring without newline lies within one line. *)
Lemma lines_cover a : forall p t,
  all_chars not_newline p = true ->
  exists (i : nat) (a' t' : string),
    lines (a +:+ p +:+ t) !! i = Some (a' +:+ p +:+ t').
Proof.
  induction a as [|c a IH]; intros p t Hp.
  - destruct (lines t) as [|l ls] eqn:E; [destruct (lines_nonempty _ E)|].
    exists 0%nat, "", l. rewrite app_empty_l.
    rewrite (lines_prefix _ _ _ _ Hp E). reflexivity.
  - destruct (IH p t Hp) as (i & a' & t' & Hi).
    rewrite app_String. simpl.
    destruct (Ascii.eqb c "010").
    + exists (S i), a', t'. exact Hi.
    + destruct (lines (a +:+ p +:+ t)) as [|l0 ls] eqn:E;
        [destruct (lines_nonempty _ E)|].
      destruct i as [|i].
      * simpl in Hi. injection Hi as ->.
        exists 0%nat, (String c a'), t'. reflexivity.
      * exists (S i), a', t'. exact Hi.
Qed.

(** For a pattern that rejects the newline, searching a text is searching
    its lines. *)
Lemma re_search_lines ic r s :
  rejects_newline ic r = true ->
  re_search ic r s = existsb (re_search ic r) (lines s).
Proof.
  intros Hr. apply eq_true_iff_eq. rewrite existsb_exists. split.
  - intros (a & p & t & -> & Hp)%re_search_spec.
    pose proof (lang_rejects_newline _ _ _ Hp Hr) as Hnl.
    destruct (lines_cover a p t Hnl) as (i & a' & t' & Hi).
    exists (a' +:+ p +:+ t'). split.
    + apply list_elem_of_In, list_elem_of_lookup. eauto.
    + apply re_search_spec. exists a', p, t'. auto.
  - intros (line & Hin & Hs).
    apply list_elem_of_In, list_elem_of_lookup in Hin as [i Hi].
    apply lines_sub in Hi as (a & b & ->).
    apply re_search_spec in Hs as (a' & p & t' & -> & Hp).
    apply re_search_spec. exists (a +:+ a'), p, (t' +:+ b). split; [|exact Hp].
    rewrite !str_app_assoc. reflexivity.
Qed.

Lemma injection_label_in_text_issues content :
  In "Potential SQL injection vulnerability" (sql_text_issues content)
  <-> re_search true sql_injection_re content = true.
Proof.
  unfold sql_text_issues. rewrite !in_app_iff. split.
  - intros [H|[H|H]].
    + destruct (re_search true sql_injection_re content);
        [reflexivity | destruct H].
    + exfalso. revert H. by_cases_on_tests; simpl; intros H; [|exact H].
      destruct H as [H|[]]. discriminate H.
    + exfalso. apply in_map_iff in H as (op & H & _).
      rewrite app_String in H. discriminate H.
  - intros ->. left. left. reflexivity.
Qed.

Lemma injection_label_not_statement types :
  ~ In "Potential SQL injection vulnerability" (sql_statement_issues types).
Proof.
  unfold sql_statement_issues. intros H.
  apply in_map_iff in H as (t & H & _). discriminate H.
Qed.

(** X8. The SQL-injection heuristic sees one line at a time: the issue is
    reported exactly when some single line of the file matches the pattern
    (keyword, then + or ||, then input, argv or getenv).  A statement whose
    keyword and concatenation sit on different lines is not reported. *)
Theorem X8_sql_injection_is_line_local
    (open_read : string -> exn + string) (ast_parse : string -> exn + node)
    (Statement : Type) (sqlparse_parse : string -> exn + list Statement)
    (get_type : Statement -> string) (filepath content : string) :
  open_read filepath = inr content ->
  exists issues : list string,
    generate_security_report open_read ast_parse sqlparse_parse get_type
      filepath "sql" !! "security_issues" = Some (VList issues)
    /\ (In "Potential SQL injection vulnerability" issues
        <-> existsb (re_search true sql_injection_re) (lines content) = true).
Proof.
  intros Hread. eexists. split.
  { unfold generate_security_report. simpl String.eqb. cbv iota.
    apply (sql_issues_readable _ _ _ _ _ _ Hread). }
  rewrite in_app_iff, injection_label_in_text_issues.
  rewrite (re_search_lines true sql_injection_re content eq_refl).
  pose proof (injection_label_not_statement
                (statement_types get_type (sqlparse_parse content))).
  tauto.
Qed.

Lemma X8_sql_injection_is_line_local_witness :
  exists issues : list string,
    generate_security_report
      (every_file ("SELECT * FROM t WHERE id = '" +:+ nl +:+ "' + input()"))
      parse_fails one_select type_of "q.sql" "sql" !! "security_issues"
    = Some (VList issues)
    /\ ~ In "Potential SQL injection vulnerability" issues.
Proof.
  destruct (X8_sql_injection_is_line_local
              (every_file ("SELECT * FROM t WHERE id = '" +:+ nl
                           +:+ "' + input()"))
              parse_fails string one_select type_of "q.sql"
              ("SELECT * FROM t WHERE id = '" +:+ nl +:+ "' + input()")
              eq_refl) as (issues & Hissues & Hiff).
  exists issues. split; [exact Hissues|].
  intros Hin. apply Hiff in Hin. vm_compute in Hin. discriminate Hin.
Defined.

(** ** How much the text heuristics can take *)

Lemma pattern_scanner_py_cap content :
  0 <= penalties (pattern_scanner_py content) <= 85.
Proof.
  unfold pattern_scanner_py. rewrite !penalties_app.
  assert (0 <= penalties (dangerous_function_findings content) <= 50).
  { unfold dangerous_function_findings, dangerous_funcs. simpl flat_map.
    by_cases_on_tests; vm_compute; split; discriminate. }
  assert (0 <= penalties (command_injection_findings content) <= 15).
  { unfold command_injection_findings.
    by_cases_on_tests; vm_compute; split; discriminate. }
  assert (0 <= penalties (credential_findings content) <= 20).
  { unfold credential_findings.
    by_cases_on_tests; vm_compute; split; discriminate. }
  lia.
Qed.

Lemma pattern_scanner_sql_cap content :
  0 <= penalties (pattern_scanner_sql content) <= 110.
Proof.
  unfold pattern_scanner_sql, sensitive_ops. simpl flat_map.
  by_cases_on_tests; vm_compute; split; discriminate.
Qed.

Lemma penalties_tens (fs : list finding) :
  Forall (fun f => snd f = 10) fs -> penalties fs = 10 * Z.of_nat (length fs).
Proof.
  induction 1 as [|f fs Hf _ IH]; unfold penalties in *; simpl length; simpl map.
  - reflexivity.
  - simpl sumZ. rewrite IH, Hf. lia.
Qed.

Lemma structural_scanner_tens parsed :
  penalties (structural_scanner parsed)
  = 10 * Z.of_nat (length (python_structural_issues parsed)).
Proof.
  rewrite <- structural_scanner_labels, length_map.
  apply penalties_tens.
  destruct parsed as [e|tree]; simpl; [constructor|].
  apply Forall_map, Forall_forall. intros hit _. reflexivity.
Qed.

Lemma statement_classifier_tens types :
  penalties (statement_classifier types)
  = 10 * Z.of_nat (length (sql_statement_issues types)).
Proof.
  rewrite <- statement_classifier_labels, length_map.
  apply penalties_tens. apply Forall_flat_map. intros t _.
  destruct (String.eqb t "UNKNOWN"); repeat constructor.
Qed.

(** X9. The text heuristics take at most 85 points from a Python file and
    at most 110 from an SQL file; every further point lost is 10 per
    reported call (Python) or per statement of type UNKNOWN (SQL).  So a
    Python score under 15 needs structural findings, and an SQL score under
    -10 needs malformed statements. *)
Theorem X9_text_penalty_caps
    (open_read : string -> exn + string) (ast_parse : string -> exn + node)
    (Statement : Type) (sqlparse_parse : string -> exn + list Statement)
    (get_type : Statement -> string) (filepath content : string) :
  open_read filepath = inr content ->
  (exists text_penalty : Z,
      0 <= text_penalty <= 85
      /\ generate_security_report open_read ast_parse sqlparse_parse get_type
           filepath "py" !! "security_score"
         = Some (VInt (100 - text_penalty
                       - 10 * Z.of_nat
                           (length (python_structural_issues
                                      (ast_parse content))))))
  /\ (exists text_penalty : Z,
        0 <= text_penalty <= 110
        /\ generate_security_report open_read ast_parse sqlparse_parse
             get_type filepath "sql" !! "security_score"
           = Some (VInt (100 - text_penalty
                         - 10 * Z.of_nat
                             (length (sql_statement_issues
                                        (statement_types get_type
                                           (sqlparse_parse content))))))).
Proof.
  intros Hread. unfold generate_security_report. simpl String.eqb. cbv iota.
  split.
  - exists (penalties (pattern_scanner_py content)).
    split; [apply pattern_scanner_py_cap|].
    rewrite (analyze_python_security_readable _ _ _ _ Hread).
    unfold aggregate. rewrite mk_report_score, penalties_app.
    rewrite structural_scanner_tens. do 2 f_equal. lia.
  - exists (penalties (pattern_scanner_sql content)).
    split; [apply pattern_scanner_sql_cap|].
    rewrite (analyze_sql_security_readable _ _ _ _ _ _ Hread).
    unfold aggregate. rewrite mk_report_score, penalties_app.
    rewrite statement_classifier_tens. do 2 f_equal. lia.
Qed.

Lemma X9_text_penalty_caps_witness :
  exists text_penalty : Z,
    0 <= text_penalty <= 110
    /\ generate_security_report (every_file overloaded_sql) parse_fails
         one_select type_of "upload.sql" "sql" !! "security_score"
       = Some (VInt (100 - text_penalty
                     - 10 * Z.of_nat
                         (length (sql_statement_issues
                                    (statement_types type_of
                                       (one_select overloaded_sql)))))).
Proof.
  destruct (X9_text_penalty_caps (every_file overloaded_sql) parse_fails string
              one_select type_of "upload.sql" overloaded_sql eq_refl) as [_ H].
  exact H.
Defined.

(** ** Text-level issues are reported once *)

Lemma python_text_issues_NoDup content :
  NoDup (python_text_issues content)
  /\ (length (python_text_issues content) <= 7)%nat.
Proof.
  unfold python_text_issues, dangerous_funcs. simpl List.filter.
  by_cases_on_tests; (split; [compute_done | simpl; lia]).
Qed.

Lemma sql_text_issues_NoDup content :
  NoDup (sql_text_issues content)
  /\ (length (sql_text_issues content) <= 6)%nat.
Proof.
  unfold sql_text_issues, sensitive_ops. simpl List.filter.
  by_cases_on_tests; (split; [compute_done | simpl; lia]).
Qed.

Lemma python_text_issues_not_call content :
  Forall (fun l => startswith call_prefix l = false) (python_text_issues content).
Proof.
  rewrite <- pattern_scanner_py_labels. apply Forall_map.
  apply pattern_scanner_py_not_call.
Qed.

Lemma python_structural_issues_call parsed :
  Forall (fun l => startswith call_prefix l = true)
    (python_structural_issues parsed).
Proof.
  destruct parsed as [e|tree]; simpl; [constructor|].
  apply Forall_map, Forall_forall. intros hit _.
  apply (structural_label_call hit).
Qed.

Lemma malformed_not_in_text_issues content :
  ~ In "Potentially malformed SQL statement" (sql_text_issues content).
Proof.
  intros H.
  pose proof (pattern_scanner_sql_priced content) as Hp.
  rewrite <- pattern_scanner_sql_labels in H.
  apply in_map_iff in H as ([l p] & Hl & Hin). simpl in Hl. subst l.
  unfold pattern_scanner_sql, sensitive_ops in Hin. simpl flat_map in Hin.
  revert Hin. by_cases_on_tests; simpl; intros Hin;
    repeat (destruct Hin as [Hin|Hin]; [discriminate Hin|]); exact Hin.
Qed.

(** X10. A text-level signature is reported at most once per file, however
    often it occurs: the issues of a Python report are at most seven
    distinct text-level labels followed by the labels of the calls, and
    those of an SQL report at most six distinct text-level labels followed
    by the malformed-statement labels.  Only the latter parts can repeat a
    label. *)
Theorem X10_text_issues_reported_once
    (open_read : string -> exn + string) (ast_parse : string -> exn + node)
    (Statement : Type) (sqlparse_parse : string -> exn + list Statement)
    (get_type : Statement -> string) (filepath content : string) :
  open_read filepath = inr content ->
  (exists text calls : list string,
      generate_security_report open_read ast_parse sqlparse_parse get_type
        filepath "py" !! "security_issues" = Some (VList (text ++ calls))
      /\ NoDup text /\ (length text <= 7)%nat
      /\ Forall (fun l => startswith "Dangerous function call: " l = false) text
      /\ Forall (fun l => startswith "Dangerous function call: " l = true) calls)
  /\ (exists text malformed : list string,
        generate_security_report open_read ast_parse sqlparse_parse get_type
          filepath "sql" !! "security_issues" = Some (VList (text ++ malformed))
        /\ NoDup text /\ (length text <= 6)%nat
        /\ ~ In "Potentially malformed SQL statement" text
        /\ Forall (fun l => l = "Potentially malformed SQL statement") malformed).
Proof.
  intros Hread. unfold generate_security_report. simpl String.eqb. cbv iota.
  split.
  - exists (python_text_issues content),
           (python_structural_issues (ast_parse content)).
    split; [apply (python_issues_readable _ _ _ _ Hread)|].
    destruct (python_text_issues_NoDup content) as [Hnd Hlen].
    split; [exact Hnd|]. split; [exact Hlen|]. split.
    + apply python_text_issues_not_call.
    + apply python_structural_issues_call.
  - exists (sql_text_issues content),
           (sql_statement_issues
              (statement_types get_type (sqlparse_parse content))).
    split; [apply (sql_issues_readable _ _ _ _ _ _ Hread)|].
    destruct (sql_text_issues_NoDup content) as [Hnd Hlen].
    split; [exact Hnd|]. split; [exact Hlen|]. split.
    + apply malformed_not_in_text_issues.
    + unfold sql_statement_issues. apply Forall_map, Forall_forall.
      intros t _. reflexivity.
Qed.

Lemma X10_text_issues_reported_once_witness :
  exists text calls : list string,
    generate_security_report
      (every_file ("eval(a)" +:+ nl +:+ "eval(b); eval(c)"))
      (fun _ => inr (Node [Node [Call 1 (Name 1 "eval") [Name 1 "a"] []];
                           Node [Call 2 (Name 2 "eval") [Name 2 "b"] []];
                           Node [Call 2 (Name 2 "eval") [Name 2 "c"] []]]))
      one_select type_of "upload.py" "py" !! "security_issues"
    = Some (VList (text ++ calls))
    /\ NoDup text /\ (length text <= 7)%nat
    /\ Forall (fun l => startswith "Dangerous function call: " l = false) text
    /\ Forall (fun l => startswith "Dangerous function call: " l = true) calls.
Proof.
  destruct (X10_text_issues_reported_once
              (every_file ("eval(a)" +:+ nl +:+ "eval(b); eval(c)"))
              (fun _ => inr (Node [Node [Call 1 (Name 1 "eval") [Name 1 "a"] []];
                                   Node [Call 2 (Name 2 "eval") [Name 2 "b"] []];
                                   Node [Call 2 (Name 2 "eval") [Name 2 "c"] []]]))
              string one_select type_of "upload.py"
              ("eval(a)" +:+ nl +:+ "eval(b); eval(c)") eq_refl) as [H _].
  exact H.
Defined.

(** * app.py: the upload filter *)

Lemma str_in_dot_cons c s :
  str_in "." (String c s) = Ascii.eqb c "." || str_in "." s.
Proof.
  change (str_in "." (String c s))
    with ((if Ascii.eqb "." c then startswith "" s else false)
          || str_in "." s).
  rewrite (Ascii.eqb_sym "." c).
  destruct (Ascii.eqb c "."); [destruct s|]; reflexivity.
Qed.

Lemma split_last_dot_none s :
  split_last_dot s = None <-> str_in "." s = false.
Proof.
  induction s as [|c s IH].
  - split; reflexivity.
  - rewrite str_in_dot_cons. simpl.
    destruct (split_last_dot s) as [[h t]|].
    + split; [discriminate|]. intros H. apply orb_false_iff in H as [_ H].
      apply IH in H. discriminate.
    + destruct (Ascii.eqb c "."); simpl.
      * split; discriminate.
      * split; [intros _; apply IH; reflexivity | reflexivity].
Qed.

(** [split_last_dot] cuts at a dot, and the tail holds no dot. *)
Lemma split_last_dot_some s head tail :
  split_last_dot s = Some (head, tail) <->
  s = head +:+ "." +:+ tail /\ str_in "." tail = false.
Proof.
  revert head tail. induction s as [|c s IH]; intros head tail.
  - split; [discriminate|]. intros [H _]. destruct head; discriminate.
  - simpl. destruct (split_last_dot s) as [[h t]|] eqn:E.
    + split.
      * intros [= <- <-]. destruct (proj1 (IH h t) eq_refl) as [-> Ht].
        split; [reflexivity | exact Ht].
      * intros [Hs Ht]. destruct head as [|a head].
        -- change ("" +:+ "." +:+ tail) with (String "." tail) in Hs.
           injection Hs as Hc Hs.
           assert (Hn : split_last_dot tail = None)
             by (apply split_last_dot_none; exact Ht).
           congruence.
        -- rewrite app_String in Hs. injection Hs as Hc Hs.
           pose proof (proj2 (IH head tail) (conj Hs Ht)) as H.
           congruence.
    + apply split_last_dot_none in E.
      destruct (Ascii.eqb_spec c ".") as [->|Hc].
      * split.
        -- intros [= <- <-]. split; [reflexivity | exact E].
        -- intros [Hs Ht]. destruct head as [|a head].
           ++ change ("" +:+ "." +:+ tail) with (String "." tail) in Hs.
              injection Hs as Hs. congruence.
           ++ rewrite app_String in Hs. injection Hs as Ha Hs.
              rewrite Hs, str_in_intro in E. discriminate.
      * split; [discriminate|]. intros [Hs Ht]. destruct head as [|a head].
        -- change ("" +:+ "." +:+ tail) with (String "." tail) in Hs.
           injection Hs as Hs' _. contradiction.
        -- rewrite app_String in Hs. injection Hs as Ha Hs.
           rewrite Hs, str_in_intro in E. discriminate.
Qed.

Lemma extension_of_dotted head tail :
  str_in "." tail = false ->
  extension_of (head +:+ "." +:+ tail) = inr (str_lower tail).
Proof.
  intros Ht. unfold extension_of, rsplit_dot.
  rewrite (proj2 (split_last_dot_some _ head tail) (conj eq_refl Ht)).
  reflexivity.
Qed.

Lemma extension_of_no_dot filename :
  str_in "." filename = false ->
  extension_of filename = inl "list index out of range".
Proof.
  intros H. unfold extension_of, rsplit_dot.
  rewrite (proj2 (split_last_dot_none _) H). reflexivity.
Qed.

Lemma dotted_decompose filename :
  str_in "." filename = true ->
  exists head tail,
    filename = head +:+ "." +:+ tail /\ str_in "." tail = false.
Proof.
  intros H. destruct (split_last_dot filename) as [[h t]|] eqn:E.
  - exists h, t. apply split_last_dot_some. exact E.
  - apply split_last_dot_none in E. congruence.
Qed.

Lemma allowed_extension ext :
  bool_decide (ext ∈ ALLOWED_EXTENSIONS) = true <-> ext = "py" \/ ext = "sql".
Proof.
  rewrite bool_decide_eq_true. unfold ALLOWED_EXTENSIONS. set_solver.
Qed.

(** [str.lower] and the folding of A-Z differ only on characters that
    neither of them sends to ASCII. *)
Lemma str_lower_char_ascii c d :
  (code d <? 128)%N = true ->
  str_lower_char c = d <-> lower_char c = d.
Proof.
  intros Hd.
  assert (H : str_lower_char c = lower_char c
              \/ ((code (str_lower_char c) <? 128)%N = false
                  /\ (code (lower_char c) <? 128)%N = false)).
  { destruct c as [[] [] [] [] [] [] [] []];
      first [left; reflexivity | right; split; reflexivity]. }
  destruct H as [->|[H1 H2]]; [reflexivity|].
  split; intros <-; congruence.
Qed.

Lemma str_lower_ascii s : forall t,
  all_chars (fun d => (code d <? 128)%N) t = true ->
  str_lower s = t <-> lower s = t.
Proof.
  induction s as [|c s IH]; intros [|d t] Ht; simpl;
    try (split; intros H; discriminate H); [reflexivity|].
  simpl in Ht. apply andb_true_iff in Ht as [Hd Ht].
  split; intros [= Hc Hs]; f_equal;
    solve [apply (str_lower_char_ascii c d Hd); exact Hc
          | apply (IH t Ht); exact Hs].
Qed.

Lemma lowered_extension ext :
  str_lower ext = "py" \/ str_lower ext = "sql"
  <-> lower ext = "py" \/ lower ext = "sql".
Proof.
  rewrite (str_lower_ascii ext "py"), (str_lower_ascii ext "sql");
    reflexivity.
Qed.

(** X11. [allowed_file] never raises (the index 1 is only taken when the
    name holds a dot) and accepts exactly the names whose text after the
    last dot is py or sql up to the case of the letters; nothing before
    the last dot matters, not even whether it is empty. *)
Theorem X11_allowed_file_by_last_extension (filename : string) :
  exists accepted : bool,
    allowed_file filename = inr accepted
    /\ (accepted = true <->
        exists stem ext : string,
          filename = stem +:+ "." +:+ ext
          /\ str_in "." ext = false
          /\ (lower ext = "py" \/ lower ext = "sql")).
Proof.
  unfold allowed_file. destruct (str_in "." filename) eqn:Hdot.
  - destruct (dotted_decompose _ Hdot) as (head & tail & -> & Ht).
    rewrite (extension_of_dotted _ _ Ht). eexists. split; [reflexivity|].
    rewrite allowed_extension, lowered_extension. split.
    + intros H. exists head, tail. auto.
    + intros (stem & ext & Heq & Hext & H).
      assert (E : Some (head, tail) = Some (stem, ext)).
      { rewrite <- (proj2 (split_last_dot_some _ head tail) (conj eq_refl Ht)).
        apply split_last_dot_some. auto. }
      injection E as _ ->. exact H.
  - exists false. split; [reflexivity|]. split; [discriminate|].
    intros (stem & ext & -> & _). rewrite str_in_intro in Hdot. discriminate.
Qed.

(** X12. The extension expression of [upload] and [rerun] raises
    IndexError exactly on a name without a dot; on any other name it gives
    the text after the last dot, lower-cased as [str.lower] does (the
    capital letters of Latin-1 as well as A-Z). *)
Theorem X12_extension_of_cases (filename : string) :
  match extension_of filename with
  | inl e =>
      e = "list index out of range" /\ str_in "." filename = false
  | inr ext =>
      exists stem raw : string,
        filename = stem +:+ "." +:+ raw
        /\ str_in "." raw = false
        /\ ext = str_lower raw
  end.
Proof.
  destruct (str_in "." filename) eqn:Hdot.
  - destruct (dotted_decompose _ Hdot) as (head & tail & -> & Ht).
    rewrite (extension_of_dotted _ _ Ht). exists head, tail. auto.
  - rewrite (extension_of_no_dot _ Hdot). auto.
Qed.

(** As [str.lower], the expression folds the capital letters of Latin-1
    too: the extension of x.ETE written with two E acute capitals (U+00C9)
    is ete with two e acute small letters (U+00E9). *)
Remark extension_of_latin1 :
  extension_of ("x." +:+ String "201" (String "T" (String "201" "")))
  = inr (String "233" (String "t" (String "233" ""))).
Proof. reflexivity. Qed.

(** X13. The upload filter and the dispatcher of the analyzer agree on
    what is supported: [allowed_file] accepts a name exactly when
    [generate_security_report], given the extension of that name as file
    type, returns a scored report rather than the unsupported-type
    dictionary. *)
Theorem X13_filter_matches_dispatch
    (open_read : string -> exn + string) (ast_parse : string -> exn + node)
    (Statement : Type) (sqlparse_parse : string -> exn + list Statement)
    (get_type : Statement -> string) (filepath filename : string) :
  allowed_file filename = inr true <->
  exists ext : string,
    extension_of filename = inr ext
    /\ is_Some (generate_security_report open_read ast_parse sqlparse_parse
                  get_type filepath ext !! "security_score").
Proof.
  assert (Hdispatch : forall ext,
             is_Some (generate_security_report open_read ast_parse
                        sqlparse_parse get_type filepath ext
                      !! "security_score")
             <-> ext = "py" \/ ext = "sql").
  { intros ext. unfold generate_security_report.
    destruct (String.eqb_spec ext "py") as [->|Hpy].
    - split; [auto|]. intros _.
      destruct (open_read filepath) as [e|content] eqn:E.
      + rewrite (analyze_python_security_unreadable _ _ _ _ E). eexists.
        reflexivity.
      + rewrite (analyze_python_security_readable _ _ _ _ E). eexists.
        unfold aggregate. apply mk_report_score.
    - destruct (String.eqb_spec ext "sql") as [->|Hsql].
      + split; [auto|]. intros _.
        destruct (open_read filepath) as [e|content] eqn:E.
        * rewrite (analyze_sql_security_unreadable _ _ _ _ _ _ E). eexists.
          reflexivity.
        * rewrite (analyze_sql_security_readable _ _ _ _ _ _ E). eexists.
          unfold aggregate. apply mk_report_score.
      + split; [|intros [?|?]; contradiction].
        intros [v Hv]. discriminate Hv. }
  unfold allowed_file. destruct (str_in "." filename) eqn:Hdot.
  - destruct (dotted_decompose _ Hdot) as (head & tail & -> & Ht).
    rewrite (extension_of_dotted _ _ Ht). split.
    + intros [= H]. apply allowed_extension in H.
      exists (str_lower tail). split; [reflexivity|]. apply Hdispatch, H.
    + intros (ext & [= <-] & H). apply Hdispatch in H.
      f_equal. apply allowed_extension, H.
  - rewrite (extension_of_no_dot _ Hdot). split; [discriminate|].
    intros (ext & H & _). discriminate H.
Qed.

(** * auth.py: signup and login *)

(** ** [strip] *)

Lemma length_app_string s t :
  String.length (s +:+ t) = (String.length s + String.length t)%nat.
Proof.
  induction s as [|c s IH]; [reflexivity|].
  rewrite app_String. simpl. rewrite IH. reflexivity.
Qed.

Lemma lstrip_sub s : exists l, s = l +:+ lstrip s.
Proof.
  induction s as [|c s [l IH]]; [exists ""; reflexivity|].
  simpl. destruct (is_space c).
  - exists (String c l). rewrite app_String, <- IH. reflexivity.
  - exists "". reflexivity.
Qed.

Lemma rstrip_sub s : exists r, s = rstrip s +:+ r.
Proof.
  induction s as [|c s [r IH]]; [exists ""; reflexivity|].
  simpl. destruct (rstrip s) as [|d t] eqn:E.
  - destruct (is_space c).
    + exists (String c s). reflexivity.
    + exists s. reflexivity.
  - exists r. rewrite app_String, <- IH. reflexivity.
Qed.

Lemma strip_sub s : exists l r, s = l +:+ strip s +:+ r.
Proof.
  destruct (lstrip_sub s) as [l Hl]. unfold strip.
  destruct (rstrip_sub (lstrip s)) as [r Hr].
  exists l, r. rewrite <- Hr. exact Hl.
Qed.

(** A string as long as its stripped form is stripped. *)
Lemma strip_same_length s :
  String.length (strip s) = String.length s -> strip s = s.
Proof.
  intros H. destruct (strip_sub s) as (l & r & Hs).
  assert (Hlen : String.length s
                 = (String.length l + (String.length (strip s)
                                       + String.length r))%nat).
  { rewrite Hs at 1. rewrite !length_app_string. reflexivity. }
  assert (l = "") by (destruct l; [reflexivity | simpl in Hlen; lia]).
  assert (r = "") by (destruct r; [reflexivity | simpl in Hlen; lia]).
  subst l r. rewrite app_empty_l, app_empty_r in Hs. symmetry. exact Hs.
Qed.

Lemma rstrip_idem s : rstrip (rstrip s) = rstrip s.
Proof.
  induction s as [|c s IH]; [reflexivity|].
  simpl. destruct (rstrip s) as [|d t] eqn:E.
  - destruct (is_space c) eqn:Hc; [reflexivity|]. simpl. rewrite Hc. reflexivity.
  - change (rstrip (String c (String d t)))
      with (match rstrip (String d t) with
            | EmptyString => if is_space c then EmptyString
                             else String c EmptyString
            | r => String c r
            end).
    rewrite IH. reflexivity.
Qed.

Lemma lstrip_fixed_head c s : is_space c = false -> lstrip (String c s) = String c s.
Proof. intros H. simpl. rewrite H. reflexivity. Qed.

Lemma lstrip_head s :
  lstrip s = "" \/ exists c t, lstrip s = String c t /\ is_space c = false.
Proof.
  induction s as [|c s IH]; [left; reflexivity|].
  simpl. destruct (is_space c) eqn:Hc; [exact IH|].
  right. exists c, s. auto.
Qed.

Lemma rstrip_keeps_head c t :
  is_space c = false -> exists t', rstrip (String c t) = String c t'.
Proof.
  intros Hc. simpl. destruct (rstrip t) as [|d r].
  - rewrite Hc. eauto.
  - eauto.
Qed.

Lemma strip_idem s : strip (strip s) = strip s.
Proof.
  unfold strip. destruct (lstrip_head s) as [E|(c & t & E & Hc)]; rewrite E.
  - reflexivity.
  - destruct (rstrip_keeps_head c t Hc) as [t' Ht]. rewrite Ht.
    rewrite (lstrip_fixed_head _ _ Hc), <- Ht. apply rstrip_idem.
Qed.

Lemma lower_char_space c : is_space (lower_char c) = is_space c.
Proof. destruct c as [[] [] [] [] [] [] [] []]; reflexivity. Qed.

Lemma lstrip_lower s : lstrip (lower s) = lower (lstrip s).
Proof.
  induction s as [|c s IH]; [reflexivity|].
  simpl. rewrite lower_char_space. destruct (is_space c); [exact IH | reflexivity].
Qed.

Lemma rstrip_lower s : rstrip (lower s) = lower (rstrip s).
Proof.
  induction s as [|c s IH]; [reflexivity|].
  simpl. rewrite IH, lower_char_space.
  destruct (rstrip s); [destruct (is_space c)|]; reflexivity.
Qed.

Lemma strip_lower s : strip (lower s) = lower (strip s).
Proof. unfold strip. rewrite lstrip_lower, rstrip_lower. reflexivity. Qed.

Lemma length_lower s : String.length (lower s) = String.length s.
Proof. induction s as [|c s IH]; simpl; congruence. Qed.

(** A name equal, up to case, to a stripped name is stripped. *)
Lemma stripped_nocase a b : lower a = lower b -> strip b = b -> strip a = a.
Proof.
  intros Hab Hb. apply strip_same_length.
  rewrite <- (length_lower (strip a)), <- strip_lower, Hab, strip_lower, Hb.
  rewrite <- Hab. apply length_lower.
Qed.

(** ** NOCASE *)

Lemma lower_char_nul c : is_nul (lower_char c) = is_nul c.
Proof. destruct c as [[] [] [] [] [] [] [] []]; reflexivity. Qed.

Lemma lower_char_width c :
  (code (lower_char c) <? 128)%N = (code c <? 128)%N.
Proof. destruct c as [[] [] [] [] [] [] [] []]; reflexivity. Qed.

Lemma is_nul_eq c : is_nul c = true -> c = "000"%char.
Proof. destruct c as [[] [] [] [] [] [] [] []]; first [reflexivity | discriminate]. Qed.

Lemma folded_nul c d : lower_char c = lower_char d -> is_nul c = is_nul d.
Proof.
  intros H. rewrite <- (lower_char_nul c), H. apply lower_char_nul.
Qed.

Lemma folded_width c d :
  lower_char c = lower_char d -> (code c <? 128)%N = (code d <? 128)%N.
Proof.
  intros H. rewrite <- (lower_char_width c), H. apply lower_char_width.
Qed.

Lemma utf8_length_cons c s :
  utf8_length (String c s)
  = ((if (code c <? 128)%N then 1 else 2) + utf8_length s)%nat.
Proof. reflexivity. Qed.

(** Texts that the comparison takes for equal have the same key. *)
Lemma strnicmp_zero_key a : forall b,
  strnicmp_zero a b = true ->
  utf8_length a = utf8_length b ->
  lower (through_nul a) = lower (through_nul b).
Proof.
  induction a as [|c a IH]; intros [|d b] H Hlen.
  - reflexivity.
  - rewrite utf8_length_cons in Hlen. simpl in Hlen.
    destruct (code d <? 128)%N; discriminate Hlen.
  - rewrite utf8_length_cons in Hlen. simpl in Hlen.
    destruct (code c <? 128)%N; discriminate Hlen.
  - simpl in H. simpl through_nul. destruct (is_nul c) eqn:Hc.
    + rewrite H. apply is_nul_eq in Hc, H. subst c d. reflexivity.
    + destruct (Ascii.eqb_spec (lower_char c) (lower_char d)) as [E|];
        [|discriminate H].
      rewrite <- (folded_nul _ _ E), Hc. simpl. rewrite E. f_equal.
      apply IH; [exact H|].
      rewrite !utf8_length_cons, (folded_width _ _ E) in Hlen.
      lia.
Qed.

Lemma key_strnicmp_zero a : forall b,
  lower (through_nul a) = lower (through_nul b) ->
  strnicmp_zero a b = true.
Proof.
  induction a as [|c a IH]; intros [|d b] H; try reflexivity.
  simpl in H |- *.
  destruct (is_nul c) eqn:Hc, (is_nul d) eqn:Hd; simpl in H.
  - reflexivity.
  - injection H as E _. apply folded_nul in E. congruence.
  - injection H as E _. apply folded_nul in E. congruence.
  - injection H as E Hrest. rewrite E, Ascii.eqb_refl. apply IH. exact Hrest.
Qed.

(** NOCASE compares the keys: it is an equivalence on texts. *)
Lemma nocase_eqb_key a b :
  nocase_eqb a b = true <-> nocase_key a = nocase_key b.
Proof.
  unfold nocase_eqb, nocase_key. rewrite andb_true_iff, Nat.eqb_eq. split.
  - intros [H Hlen]. f_equal; [apply strnicmp_zero_key; assumption | exact Hlen].
  - intros [= H Hlen]. split; [apply key_strnicmp_zero; exact H | exact Hlen].
Qed.

Lemma nocase_eqb_false_key a b :
  nocase_eqb a b = false <-> nocase_key a <> nocase_key b.
Proof.
  rewrite <- nocase_eqb_key. destruct (nocase_eqb a b); split;
    congruence.
Qed.

Lemma nocase_eqb_refl a : nocase_eqb a a = true.
Proof. apply nocase_eqb_key. reflexivity. Qed.

Lemma nocase_eqb_sym a b : nocase_eqb a b = nocase_eqb b a.
Proof.
  destruct (nocase_eqb b a) eqn:E.
  - apply nocase_eqb_key. symmetry. apply nocase_eqb_key. exact E.
  - apply nocase_eqb_false_key. intros H.
    apply nocase_eqb_false_key in E. congruence.
Qed.

(** Against a text without NUL, NOCASE is equality up to the case of the
    letters. *)
Lemma nocase_eqb_no_nul a : forall b,
  no_nul b = true -> nocase_eqb a b = true -> lower a = lower b.
Proof.
  unfold nocase_eqb, no_nul.
  induction a as [|c a IH]; intros [|d b] Hb H;
    apply andb_true_iff in H as [H Hlen]; apply Nat.eqb_eq in Hlen.
  - reflexivity.
  - rewrite utf8_length_cons in Hlen. simpl in Hlen.
    destruct (code d <? 128)%N; discriminate Hlen.
  - rewrite utf8_length_cons in Hlen. simpl in Hlen.
    destruct (code c <? 128)%N; discriminate Hlen.
  - simpl in Hb. apply andb_true_iff in Hb as [Hd Hb].
    apply negb_true_iff in Hd. simpl in H.
    destruct (is_nul c); [congruence|].
    destruct (Ascii.eqb_spec (lower_char c) (lower_char d)) as [E|];
      [|discriminate H].
    simpl. rewrite E. f_equal. apply IH; [exact Hb|].
    apply andb_true_iff. split; [exact H|]. apply Nat.eqb_eq.
    rewrite !utf8_length_cons, (folded_width _ _ E) in Hlen. lia.
Qed.

(** ** [signup_user] *)

Section AuthProperties.

Variable World : Type.
Variable sqlite_fault : World -> option exn.
Variable current_timestamp : World -> string.
Variable logger_error : string -> World -> World.
Variable log_signup_to_excel : string -> World -> World.

(** The one way to succeed. *)
Lemma signup_user_success username password users w message users' w' :
  signup_user sqlite_fault current_timestamp logger_error log_signup_to_excel
    username password users w = ((true, message), (users', w')) ->
  (4 <= String.length (strip password))%nat
  /\ (3 <= String.length (strip username))%nat
  /\ sqlite_fault w = None
  /\ Forall (fun row => nocase_eqb (row_username row) (strip username) = false)
       users
  /\ message = "Signup successful"
  /\ users' = users ++ [{| row_id := next_id users;
                           row_username := strip username;
                           row_password := strip password;
                           row_created_at := current_timestamp w |}]
  /\ w' = log_signup_to_excel (strip username) w.
Proof.
  unfold signup_user.
  destruct (Nat.ltb_spec (String.length (strip password)) 4) as [Hp|Hp];
    [discriminate|].
  destruct (Nat.ltb_spec (String.length (strip username)) 3) as [Hu|Hu];
    [discriminate|].
  destruct (sqlite_fault w) as [e|]; [discriminate|].
  destruct (existsb _ users) eqn:Hex; [discriminate|].
  intros [= <- <- <-]. repeat split; try assumption.
  apply Forall_forall. intros row Hrow.
  destruct (nocase_eqb (row_username row) (strip username)) eqn:E;
    [|reflexivity].
  assert (Ht : existsb (fun row => nocase_eqb (row_username row)
                                     (strip username)) users = true).
  { apply existsb_exists. exists row. split; [|exact E].
    apply list_elem_of_In. exact Hrow. }
  congruence.
Qed.

(** Every refusal leaves the table as it was. *)
Lemma signup_user_failure username password users w message users' w' :
  signup_user sqlite_fault current_timestamp logger_error log_signup_to_excel
    username password users w = ((false, message), (users', w')) ->
  users' = users.
Proof.
  unfold signup_user.
  destruct (String.length (strip password) <? 4)%nat; [intros [= _ <- _]; reflexivity|].
  destruct (String.length (strip username) <? 3)%nat; [intros [= _ <- _]; reflexivity|].
  destruct (sqlite_fault w) as [e|]; [intros [= _ <- _]; reflexivity|].
  destruct (existsb _ users); [intros [= _ <- _]; reflexivity|].
  discriminate.
Qed.

Lemma next_id_above users row :
  In row users -> row_id row < next_id users.
Proof.
  unfold next_id. induction users as [|r users IH]; intros Hin; [destruct Hin|].
  simpl. destruct Hin as [->|Hin]; [lia|]. specialize (IH Hin). lia.
Qed.

Lemma next_id_positive users : 0 < next_id users.
Proof.
  unfold next_id. induction users as [|r users IH]; simpl; lia.
Qed.

End AuthProperties.

(** X14. [signup_user] succeeds exactly when the stripped password has at
    least 4 characters, the stripped name at least 3, sqlite3 raises
    nothing and no stored name equals the stripped name under NOCASE (the
    letters A-Z folded, nothing after a first NUL compared, the same
    encoded length).  On success one row is appended, holding the stripped
    name and password; on any refusal the table is unchanged.  The password
    is checked first: a short password gives the password message whatever
    the name is. *)
Theorem X14_signup_outcome
    (World : Type) (sqlite_fault : World -> option exn)
    (current_timestamp : World -> string)
    (logger_error log_signup_to_excel : string -> World -> World)
    (username password : string) (users users' : list user_row)
    (w w' : World) (ok : bool) (message : string) :
  signup_user sqlite_fault current_timestamp logger_error log_signup_to_excel
    username password users w = ((ok, message), (users', w')) ->
  (ok = true <->
   (4 <= String.length (strip password))%nat
   /\ (3 <= String.length (strip username))%nat
   /\ sqlite_fault w = None
   /\ Forall (fun row => nocase_eqb (row_username row) (strip username) = false)
        users)
  /\ (ok = true ->
      users' = users ++ [{| row_id := next_id users;
                            row_username := strip username;
                            row_password := strip password;
                            row_created_at := current_timestamp w |}])
  /\ (ok = false -> users' = users)
  /\ ((String.length (strip password) < 4)%nat ->
      ok = false /\ message = "Password must be at least 4 characters").
Proof.
  intros H. split; [|split; [|split]].
  - split.
    + intros ->. apply signup_user_success in H. tauto.
    + intros (Hp & Hu & Hf & Hnew). revert H. unfold signup_user.
      destruct (Nat.ltb_spec (String.length (strip password)) 4); [lia|].
      destruct (Nat.ltb_spec (String.length (strip username)) 3); [lia|].
      rewrite Hf.
      destruct (existsb _ users) eqn:Hex; [|intros [= <- _]; reflexivity].
      apply existsb_exists in Hex as (row & Hrow & Hdup).
      rewrite Forall_forall in Hnew.
      rewrite (Hnew row) in Hdup; [discriminate|].
      apply list_elem_of_In. exact Hrow.
  - intros ->. apply signup_user_success in H. tauto.
  - intros ->. apply signup_user_failure in H. exact H.
  - intros Hshort. revert H. unfold signup_user.
    destruct (Nat.ltb_spec (String.length (strip password)) 4); [|lia].
    intros [= <- <-]. auto.
Qed.

Lemma X14_signup_outcome_witness :
  signup_user quiet_fault fixed_clock no_log no_log
    (" abc" +:+ nul +:+ "xyz ") "pw12" [abc_def] tt
  = ((false, "Username already exists"), ([abc_def], tt))
  /\ (false = true <->
      (4 <= String.length (strip "pw12"))%nat
      /\ (3 <= String.length (strip (" abc" +:+ nul +:+ "xyz ")))%nat
      /\ quiet_fault tt = None
      /\ Forall (fun row =>
                   nocase_eqb (row_username row)
                     (strip (" abc" +:+ nul +:+ "xyz ")) = false) [abc_def]).
Proof.
  split; [reflexivity|].
  destruct (X14_signup_outcome unit quiet_fault fixed_clock no_log no_log
              (" abc" +:+ nul +:+ "xyz ") "pw12" [abc_def] [abc_def]
              tt tt false "Username already exists" eq_refl) as [H _].
  exact H.
Defined.

Lemma signup_user_keeps_users_ok
    (World : Type) (sqlite_fault : World -> option exn)
    (current_timestamp : World -> string)
    (logger_error log_signup_to_excel : string -> World -> World)
    (username password : string) (users users' : list user_row)
    (w w' : World) (result : bool * string) :
  users_ok users ->
  signup_user sqlite_fault current_timestamp logger_error log_signup_to_excel
    username password users w = (result, (users', w')) ->
  users_ok users'.
Proof.
  intros (Hnames & Hids & Hrows) H. destruct result as [[|] message].
  - apply signup_user_success in H
      as (Hp & Hu & _ & Hnew & _ & -> & _).
    rewrite Forall_forall in Hnew.
    unfold users_ok. rewrite !map_app. simpl. repeat split.
    + apply NoDup_app. split; [exact Hnames|]. split; [|apply NoDup_singleton].
      intros name Hname Hin. apply list_elem_of_singleton in Hin. subst name.
      apply list_elem_of_In, in_map_iff in Hname as (row & Heq & Hrow).
      apply list_elem_of_In in Hrow.
      specialize (Hnew row Hrow). apply nocase_eqb_false_key in Hnew.
      congruence.
    + apply NoDup_app. split; [exact Hids|]. split; [|apply NoDup_singleton].
      intros i Hi Hin. apply list_elem_of_singleton in Hin. subst i.
      apply list_elem_of_In, in_map_iff in Hi as (row & Heq & Hrow).
      pose proof (next_id_above users row Hrow). lia.
    + apply Forall_app. split; [exact Hrows|].
      constructor; [|constructor]. unfold row_ok. simpl.
      rewrite !strip_idem. pose proof (next_id_positive users). auto.
  - apply signup_user_failure in H. subst users'.
    unfold users_ok. auto.
Qed.

(** X15. [signup_user] keeps the table in order: if no two stored names
    are equal under NOCASE, no two rows share a key, and every row holds a
    stripped name of at least 3 characters, a stripped password of at least
    4 and a positive key, then the same holds after any call. *)
Theorem X15_signup_keeps_users_ok
    (World : Type) (sqlite_fault : World -> option exn)
    (current_timestamp : World -> string)
    (logger_error log_signup_to_excel : string -> World -> World)
    (username password : string) (users users' : list user_row)
    (w w' : World) (result : bool * string) :
  users_ok users ->
  signup_user sqlite_fault current_timestamp logger_error log_signup_to_excel
    username password users w = (result, (users', w')) ->
  users_ok users'.
Proof.
  apply signup_user_keeps_users_ok.
Qed.

Lemma X15_signup_keeps_users_ok_witness :
  users_ok [alice]
  /\ signup_user quiet_fault fixed_clock no_log no_log "  bob " " hunter2 "
       [alice] tt
     = ((true, "Signup successful"), ([alice; bob], tt))
  /\ users_ok [alice; bob].
Proof.
  assert (H1 : users_ok [alice]).
  { unfold users_ok, row_ok. simpl. repeat split;
      repeat constructor; try (intros H; inversion H); simpl; lia. }
  split; [exact H1|]. split; [reflexivity|].
  apply (X15_signup_keeps_users_ok unit quiet_fault fixed_clock no_log no_log
           "  bob " " hunter2 " [alice] [alice; bob] tt tt
           (true, "Signup successful") H1).
  reflexivity.
Defined.

Lemma find_app_none {A} (f : A -> bool) (xs ys : list A) :
  Forall (fun x => f x = false) xs -> find f (xs ++ ys) = find f ys.
Proof.
  induction 1 as [|x xs Hx _ IH]; [reflexivity|].
  simpl. rewrite Hx. exact IH.
Qed.

Lemma login_after_signup
    (World : Type) (sqlite_fault : World -> option exn)
    (current_timestamp : World -> string)
    (logger_error log_signup_to_excel : string -> World -> World)
    (username password message : string) (users users' : list user_row)
    (w w' w2 : World) (name : string) :
  signup_user sqlite_fault current_timestamp logger_error log_signup_to_excel
    username password users w = ((true, message), (users', w')) ->
  sqlite_fault w2 = None ->
  nocase_eqb name (strip username) = true ->
  fst (login_user sqlite_fault logger_error name (strip password) users' w2)
  = true.
Proof.
  intros H Hw2 Hname.
  apply signup_user_success in H as (_ & _ & _ & _ & _ & -> & _).
  unfold login_user. rewrite Hw2. simpl fst.
  rewrite existsb_app. apply orb_true_iff. right. simpl.
  rewrite nocase_eqb_sym, Hname, String.eqb_refl. reflexivity.
Qed.

(** X16. After a successful signup the account can be used: with the
    stripped password and any name that NOCASE takes for the stripped name
    (the same letters in another case, for one), [login_user] accepts and
    [get_user_id] returns the key of the new row; every login that worked
    before still works. *)
Theorem X16_signup_then_login
    (World : Type) (sqlite_fault : World -> option exn)
    (current_timestamp : World -> string)
    (logger_error log_signup_to_excel : string -> World -> World)
    (username password message : string) (users users' : list user_row)
    (w w' w2 : World) (name : string) :
  signup_user sqlite_fault current_timestamp logger_error log_signup_to_excel
    username password users w = ((true, message), (users', w')) ->
  sqlite_fault w2 = None ->
  nocase_eqb name (strip username) = true ->
  fst (login_user sqlite_fault logger_error name (strip password) users' w2)
  = true
  /\ fst (get_user_id sqlite_fault logger_error name users' w2)
     = Some (next_id users)
  /\ (forall u0 p0 : string,
        fst (login_user sqlite_fault logger_error u0 p0 users w2) = true ->
        fst (login_user sqlite_fault logger_error u0 p0 users' w2) = true).
Proof.
  intros H Hw2 Hname.
  split; [eapply login_after_signup; eauto|].
  apply signup_user_success in H as (_ & _ & _ & Hnew & _ & -> & _).
  unfold login_user, get_user_id. rewrite Hw2. simpl fst.
  apply nocase_eqb_key in Hname.
  split.
  - rewrite find_app_none.
    + simpl. rewrite (proj2 (nocase_eqb_key _ _) (eq_sym Hname)). reflexivity.
    + eapply Forall_impl; [exact Hnew|]. intros row Hrow. simpl in Hrow.
      apply nocase_eqb_false_key. apply nocase_eqb_false_key in Hrow.
      congruence.
  - intros u0 p0 Hold. rewrite existsb_app, Hold. reflexivity.
Qed.

Lemma X16_signup_then_login_witness :
  signup_user quiet_fault fixed_clock no_log no_log "  bob " " hunter2 "
    [alice] tt
  = ((true, "Signup successful"), ([alice; bob], tt))
  /\ nocase_eqb "BoB" (strip "  bob ") = true
  /\ fst (login_user quiet_fault no_log "BoB" (strip " hunter2 ")
            [alice; bob] tt)
     = true
  /\ fst (get_user_id quiet_fault no_log "BoB" [alice; bob] tt)
     = Some (next_id [alice]).
Proof.
  split; [reflexivity|]. split; [reflexivity|].
  destruct (X16_signup_then_login unit quiet_fault fixed_clock no_log no_log
              "  bob " " hunter2 " "Signup successful" [alice] [alice; bob]
              tt tt tt "BoB" eq_refl eq_refl eq_refl) as (H1 & H2 & _).
  split; [exact H1 | exact H2].
Defined.

Lemma nocase_names_unique users row1 row2 :
  NoDup (map (fun row => nocase_key (row_username row)) users) ->
  In row1 users -> In row2 users ->
  nocase_key (row_username row1) = nocase_key (row_username row2) ->
  row1 = row2.
Proof.
  induction users as [|r users IH]; intros Hnd H1 H2 Heq; [destruct H1|].
  simpl in Hnd. apply NoDup_cons in Hnd as [Hr Hnd].
  destruct H1 as [->|H1], H2 as [->|H2].
  - reflexivity.
  - exfalso. apply Hr. apply list_elem_of_In, in_map_iff. exists row2.
    split; [symmetry; exact Heq | exact H2].
  - exfalso. apply Hr. apply list_elem_of_In, in_map_iff. exists row1.
    split; [exact Heq | exact H1].
  - apply IH; assumption.
Qed.

(** X17. [signup_user] strips the name and the password, [login_user] does
    not: on a table kept by [signup_user], a login with exactly the strings
    given at signup, the name holding no NUL, succeeds if and only if
    neither carried leading or trailing whitespace. *)
Theorem X17_login_with_signup_strings
    (World : Type) (sqlite_fault : World -> option exn)
    (current_timestamp : World -> string)
    (logger_error log_signup_to_excel : string -> World -> World)
    (username password message : string) (users users' : list user_row)
    (w w' w2 : World) :
  users_ok users ->
  no_nul username = true ->
  signup_user sqlite_fault current_timestamp logger_error log_signup_to_excel
    username password users w = ((true, message), (users', w')) ->
  sqlite_fault w2 = None ->
  fst (login_user sqlite_fault logger_error username password users' w2) = true
  <-> strip username = username /\ strip password = password.
Proof.
  intros Hok Hnul H Hw2.
  assert (Hok' : users_ok users').
  { eapply signup_user_keeps_users_ok; eauto. }
  pose proof H as Hs.
  apply signup_user_success in Hs as (_ & _ & _ & _ & _ & Husers' & _).
  destruct Hok' as (Hnames' & _ & Hrows').
  split.
  - unfold login_user. rewrite Hw2. simpl fst. intros Hlog.
    apply existsb_exists in Hlog as (row & Hrow & Hmatch).
    apply andb_true_iff in Hmatch as [Hn Hp].
    apply String.eqb_eq in Hp.
    rewrite Forall_forall in Hrows'.
    destruct (Hrows' row (proj2 (list_elem_of_In _ _) Hrow))
      as (Hstripped & _ & Hpw & _).
    assert (Hu : strip username = username).
    { apply (stripped_nocase _ (row_username row)); [|exact Hstripped].
      symmetry. apply nocase_eqb_no_nul; assumption. }
    split; [exact Hu|].
    set (new := {| row_id := next_id users;
                   row_username := strip username;
                   row_password := strip password;
                   row_created_at := current_timestamp w |}) in *.
    assert (Hnew : In new users').
    { rewrite Husers'. apply in_or_app. right. left. reflexivity. }
    assert (E : row = new).
    { apply (nocase_names_unique users'); try assumption.
      subst new. simpl. rewrite Hu. apply nocase_eqb_key. exact Hn. }
    rewrite E in Hp. subst new. simpl in Hp. exact Hp.
  - intros [Hu Hp].
    pose proof (login_after_signup World sqlite_fault current_timestamp
                  logger_error log_signup_to_excel username password message
                  users users' w w' w2 username H Hw2) as Hlog.
    rewrite Hp in Hlog. apply Hlog. rewrite Hu. apply nocase_eqb_refl.
Qed.

Lemma X17_login_with_signup_strings_witness :
  users_ok [alice]
  /\ no_nul "  bob " = true
  /\ signup_user quiet_fault fixed_clock no_log no_log "  bob " " hunter2 "
       [alice] tt
     = ((true, "Signup successful"), ([alice; bob], tt))
  /\ ~ (fst (login_user quiet_fault no_log "  bob " " hunter2 "
               [alice; bob] tt) = true).
Proof.
  assert (H1 : users_ok [alice]).
  { unfold users_ok, row_ok. simpl. repeat split;
      repeat constructor; try (intros H; inversion H); simpl; lia. }
  split; [exact H1|]. split; [reflexivity|]. split; [reflexivity|].
  intros Hlog.
  apply (X17_login_with_signup_strings unit quiet_fault fixed_clock no_log
           no_log "  bob " " hunter2 " "Signup successful" [alice]
           [alice; bob] tt tt tt H1 eq_refl eq_refl eq_refl) in Hlog.
  destruct Hlog as [Hu _]. vm_compute in Hu. discriminate Hu.
Defined.

(** Without that condition the equivalence fails: NOCASE looks at nothing
    after a NUL, so a name with a trailing blank can pass for a stored name
    of the same encoded length. *)
Remark login_through_nul :
  users_ok [abc_def]
  /\ fst (fst (signup_user quiet_fault fixed_clock no_log no_log
                 ("abc" +:+ nul +:+ "xy ") "pw12" [abc_def] tt))
     = true
  /\ fst (login_user quiet_fault no_log ("abc" +:+ nul +:+ "xy ") "pw12"
            (fst (snd (signup_user quiet_fault fixed_clock no_log no_log
                         ("abc" +:+ nul +:+ "xy ") "pw12" [abc_def] tt))) tt)
     = true
  /\ fst (get_user_id quiet_fault no_log ("abc" +:+ nul +:+ "zzz")
            [abc_def] tt)
     = Some 1.
Proof.
  split; [|repeat split; reflexivity].
  unfold users_ok, row_ok. simpl. repeat split;
    repeat constructor; try (intros H; inversion H); simpl; lia.
Qed.

(** * report.py: the security part of the combined report *)

Lemma security_rows_mk_report issues count risk score :
  security_rows (mk_report issues count risk score)
  = inr ([[];
          [VStr "Security Assessment"];
          [VStr "Security Score"; VStr "Risk Level";
           VStr "Vulnerability Count"];
          [VInt score; VStr risk; VInt count];
          [];
          [VStr "Security Issues Found"]]
         ++ map (fun issue => [VStr issue]) issues).
Proof.
  unfold security_rows, dict_getitem.
  change (mk_report issues count risk score !! "security_score")
    with (Some (VInt score)).
  change (mk_report issues count risk score !! "risk_level")
    with (Some (VStr risk)).
  change (mk_report issues count risk score !! "vulnerability_count")
    with (Some (VInt count)).
  change (mk_report issues count risk score !! "security_issues")
    with (Some (VList issues)).
  simpl. rewrite map_map. reflexivity.
Qed.

(** X18. [save_combined_report] can always lay out the report of a
    supported file type: it reads the four keys without KeyError and writes
    the score, risk level and count in one row and then one row per issue,
    in the order of the issue list, as many rows as the count says.  On the
    dictionary returned for any other file type it raises
    KeyError('security_score') before the workbook is saved. *)
Theorem X18_combined_report_rows
    (open_read : string -> exn + string) (ast_parse : string -> exn + node)
    (Statement : Type) (sqlparse_parse : string -> exn + list Statement)
    (get_type : Statement -> string) (filepath filetype : string) :
  let report := generate_security_report open_read ast_parse sqlparse_parse
                  get_type filepath filetype in
  (filetype = "py" \/ filetype = "sql" ->
   exists (issues : list string) (score : Z) (risk : string),
     report !! "security_issues" = Some (VList issues)
     /\ security_rows report
        = inr ([[];
                [VStr "Security Assessment"];
                [VStr "Security Score"; VStr "Risk Level";
                 VStr "Vulnerability Count"];
                [VInt score; VStr risk; VInt (Z.of_nat (length issues))];
                [];
                [VStr "Security Issues Found"]]
               ++ map (fun issue => [VStr issue]) issues))
  /\ (filetype <> "py" -> filetype <> "sql" ->
      security_rows report = inl "'security_score'").
Proof.
  intros report. subst report. unfold generate_security_report. split.
  - intros [-> | ->]; simpl String.eqb; cbv iota;
      destruct (open_read filepath) as [e|content] eqn:E.
    + rewrite (analyze_python_security_unreadable _ _ _ _ E).
      exists [], 100, "Low". split; reflexivity.
    + rewrite (analyze_python_security_readable _ _ _ _ E).
      unfold aggregate. eexists _, _, _.
      split; [apply mk_report_issues|].
      rewrite security_rows_mk_report, length_map. reflexivity.
    + rewrite (analyze_sql_security_unreadable _ _ _ _ _ _ E).
      exists [], 100, "Low". split; reflexivity.
    + rewrite (analyze_sql_security_readable _ _ _ _ _ _ E).
      unfold aggregate. eexists _, _, _.
      split; [apply mk_report_issues|].
      rewrite security_rows_mk_report, length_map. reflexivity.
  - intros Hpy Hsql. apply String.eqb_neq in Hpy, Hsql.
    rewrite Hpy, Hsql. reflexivity.
Qed.

Lemma X18_combined_report_rows_witness :
  security_rows
    (generate_security_report (one_file "notes.txt" "eval(x)") parse_fails
       one_select type_of "notes.txt" "txt")
  = inl "'security_score'".
Proof.
  destruct (X18_combined_report_rows (one_file "notes.txt" "eval(x)")
              parse_fails string one_select type_of "notes.txt" "txt")
    as [_ H].
  apply H; discriminate.
Defined.

(** * Calls below the top of the tree *)

(** X19. The structural pass misses no call: whenever the parsed tree
    holds, at any depth, a call whose callee is a bare catalog name, the
    report has the issue "Dangerous function call: NAME at line N" for
    it. *)
Theorem X19_nested_calls_are_reported
    (open_read : string -> exn + string) (ast_parse : string -> exn + node)
    (Statement : Type) (sqlparse_parse : string -> exn + list Statement)
    (get_type : Statement -> string) (filepath content : string)
    (tree : node) (lineno name_lineno : Z) (id : string)
    (args keywords : list node) :
  open_read filepath = inr content ->
  ast_parse content = inr tree ->
  descendant (Call lineno (Name name_lineno id) args keywords) tree ->
  In id dangerous_funcs ->
  exists issues : list string,
    generate_security_report open_read ast_parse sqlparse_parse get_type
      filepath "py" !! "security_issues" = Some (VList issues)
    /\ In ("Dangerous function call: " +:+ id +:+ " at line "
           +:+ pretty lineno) issues.
Proof.
  intros Hread Hparse Hdesc Hcat. eexists. split.
  { unfold generate_security_report. simpl String.eqb. cbv iota.
    apply (python_issues_readable _ _ _ _ Hread). }
  apply in_or_app. right. rewrite Hparse. simpl.
  apply in_map_iff. exists (id, lineno). split; [reflexivity|].
  apply in_flat_map.
  exists (Call lineno (Name name_lineno id) args keywords).
  split; [apply walk_reaches; exact Hdesc|].
  unfold structural_hit.
  assert (Hin : list_in id dangerous_funcs = true).
  { unfold list_in. apply existsb_exists. exists id.
    split; [exact Hcat | apply String.eqb_refl]. }
  rewrite Hin. left. reflexivity.
Qed.

Lemma X19_nested_calls_are_reported_witness :
  exists issues : list string,
    generate_security_report (every_file "print(len(eval(x)))")
      (fun _ => inr (Node [Node [Call 1 (Name 1 "print")
                                   [Call 1 (Name 1 "len")
                                      [Call 1 (Name 1 "eval") [Name 1 "x"] []]
                                      []] []]]))
      one_select type_of "upload.py" "py" !! "security_issues"
    = Some (VList issues)
    /\ In "Dangerous function call: eval at line 1" issues.
Proof.
  apply (X19_nested_calls_are_reported (every_file "print(len(eval(x)))")
           (fun _ => inr (Node [Node [Call 1 (Name 1 "print")
                                        [Call 1 (Name 1 "len")
                                           [Call 1 (Name 1 "eval")
                                              [Name 1 "x"] []] []] []]]))
           string one_select type_of "upload.py" "print(len(eval(x)))"
           _ 1 1 "eval" [Name 1 "x"] [] eq_refl eq_refl).
  - apply (descendant_child _ _
             (Node [Call 1 (Name 1 "print")
                      [Call 1 (Name 1 "len")
                         [Call 1 (Name 1 "eval") [Name 1 "x"] []] []] []]));
      [left; reflexivity|].
    apply (descendant_child _ _
             (Call 1 (Name 1 "print")
                [Call 1 (Name 1 "len")
                   [Call 1 (Name 1 "eval") [Name 1 "x"] []] []] []));
      [left; reflexivity|].
    apply (descendant_child _ _
             (Call 1 (Name 1 "len")
                [Call 1 (Name 1 "eval") [Name 1 "x"] []] []));
      [right; left; reflexivity|].
    apply (descendant_child _ _ (Call 1 (Name 1 "eval") [Name 1 "x"] []));
      [right; left; reflexivity|].
    apply descendant_self.
  - left. reflexivity.
Defined.
